(** * RGB grid screensaver: grid store, pitch mapper, tone synthesizer, scheduler

    A shallow embedding of [rgb_grid_screensaver.py] (class
    [RGBGridScreensaver]) and the properties of its grid-fill scheduler and
    audio engine.

    Python values are modelled as follows.
    - [int] is [Z]; lists are [list] with Python's indexing rules
      ([py_getitem], [py_setitem]: negative indices count from the end, an
      index out of range raises [IndexError]).
    - Exceptions are explicit: a computation returns [result A], either
      [Ok a] or [Raise e].
    - [float] arithmetic is an interface, [PyFloat], with two instances:
      [ieee_float], IEEE-754 binary64 on Rocq's primitive floats (what
      CPython runs), and [exact_float], the same expressions read over the
      rationals without rounding.  Every function is written once, against
      the interface.  What the program computes on given numbers is
      evaluated on [ieee_float]; laws over every duration, sample rate and
      frame that rest on the order of the reals are proved on
      [exact_float], and checked on [ieee_float] for the one tone the
      program plays.
    - [math.sin] and the float power operator [**] belong to the C library;
      they are the interface [Libm]. *)

From Stdlib Require Import ZArith QArith Qround Qabs String Ascii List Lia Lqa.
From Stdlib Require Import PrimFloat FloatOps SpecFloat HexString.
From stdpp Require Import base option list strings gmap.

Open Scope Z_scope.

(** ** Exceptions *)

Inductive exn : Type :=
  | IndexError
  | ZeroDivisionError
  | ValueError
  | OverflowError.

Inductive result (A : Type) : Type :=
  | Ok (a : A)
  | Raise (e : exn).

Arguments Ok {A} a.
Arguments Raise {A} e.

#[global] Instance result_ret : MRet result := fun A a => Ok a.

#[global] Instance result_bind : MBind result := fun A B f m =>
  match m with
  | Ok a => f a
  | Raise e => Raise e
  end.

(** [for i in range(n): s = body(i, s)], stopping at the first exception. *)
Fixpoint for_loop {S : Type} (body : Z -> S -> result S) (start : Z) (n : nat)
    (s : S) : result S :=
  match n with
  | O => Ok s
  | Datatypes.S n' => s' ← body start s; for_loop body (start + 1) n' s'
  end.

Definition for_range {S : Type} (n : Z) (body : Z -> S -> result S) (s : S)
    : result S :=
  for_loop body 0 (Z.to_nat n) s.

(** ** Python lists *)

(** The position a Python index denotes in a list of length [len]. *)
Definition py_index (len : nat) (i : Z) : result nat :=
  let n := Z.of_nat len in
  if (0 <=? i) && (i <? n) then Ok (Z.to_nat i)
  else if (- n <=? i) && (i <? 0) then Ok (Z.to_nat (n + i))
  else Raise IndexError.

(** [l[i]] *)
Definition py_getitem {A : Type} (l : list A) (i : Z) : result A :=
  k ← py_index (length l) i;
  match l !! k with
  | Some x => Ok x
  | None => Raise IndexError
  end.

(** [l[i] = x] *)
Definition py_setitem {A : Type} (l : list A) (i : Z) (x : A)
    : result (list A) :=
  k ← py_index (length l) i;
  Ok (<[k := x]> l).

(** [[x] * n] *)
Definition py_repeat {A : Type} (x : A) (n : Z) : list A :=
  replicate (Z.to_nat n) x.

(** ** Float arithmetic *)

(** The float operations the program uses.  Ints that meet a float are
    converted first ([float_of_int]); the model takes that conversion as
    total, so ints beyond the binary64 range (where CPython raises
    [OverflowError]) are outside it, and an int compared with a float is
    compared after conversion (exact below 2^53). *)
Class PyFloat (F : Type) := {
  float_of_int : Z -> F;
  float_lit : Q -> F;                 (* a literal such as [0.01] *)
  fadd : F -> F -> F;
  fsub : F -> F -> F;
  fmul : F -> F -> F;
  fdiv : F -> F -> result F;          (* [x / y], ZeroDivisionError at 0 *)
  fltb : F -> F -> bool;              (* [x < y] *)
  int_of_float : F -> result Z;       (* [int(x)]: truncation toward zero *)
  round_float : F -> result Z         (* [round(x)]: nearest, ties to even *)
}.

(** [math.sin] and [x ** y] on floats. *)
Class Libm (F : Type) := {
  math_sin : F -> F;
  float_pow : F -> F -> F
}.

(** *** IEEE-754 binary64 *)

Module IEEE.

(** [float(z)], rounded to nearest even. *)
Definition of_Z (z : Z) : float :=
  SF2Prim (binary_normalize prec emax z 0 false).

(** [x / y] *)
Definition div (x y : float) : result float :=
  if PrimFloat.eqb y 0%float then Raise ZeroDivisionError
  else Ok (PrimFloat.div x y).

(** The float a decimal literal denotes: the float nearest to the
    fraction, for a numerator and denominator below 2^53. *)
Definition lit (q : Q) : float :=
  PrimFloat.div (of_Z (Qnum q)) (of_Z (Zpos (Qden q))).

Definition signed (s : bool) (a : Z) : Z := if s then - a else a.

(** [int(x)]; [nan] raises ValueError and an infinity OverflowError. *)
Definition to_int (x : float) : result Z :=
  match Prim2SF x with
  | S754_zero _ => Ok 0
  | S754_finite s m e =>
      Ok (signed s (if 0 <=? e then Zpos m * 2 ^ e
                    else Zpos m / 2 ^ (- e)))
  | S754_infinity _ => Raise OverflowError
  | S754_nan => Raise ValueError
  end.

(** The integer nearest to [m / d] for [0 <= m], [0 < d], ties to even. *)
Definition nearest_even (m d : Z) : Z :=
  let q := m / d in
  let r := m mod d in
  match 2 * r ?= d with
  | Lt => q
  | Gt => q + 1
  | Eq => if Z.even q then q else q + 1
  end.

(** [round(x)], with the errors of [int(x)]. *)
Definition round (x : float) : result Z :=
  match Prim2SF x with
  | S754_zero _ => Ok 0
  | S754_finite s m e =>
      Ok (signed s (if 0 <=? e then Zpos m * 2 ^ e
                    else nearest_even (Zpos m) (2 ^ (- e))))
  | S754_infinity _ => Raise OverflowError
  | S754_nan => Raise ValueError
  end.

End IEEE.

#[global] Instance ieee_float : PyFloat float := {|
  float_of_int := IEEE.of_Z;
  float_lit := IEEE.lit;
  fadd := PrimFloat.add;
  fsub := PrimFloat.sub;
  fmul := PrimFloat.mul;
  fdiv := IEEE.div;
  fltb := PrimFloat.ltb;
  int_of_float := IEEE.to_int;
  round_float := IEEE.round
|}.

(** *** Exact rational arithmetic *)

Module Exact.

Definition div (x y : Q) : result Q :=
  if Qeq_bool y 0 then Raise ZeroDivisionError else Ok (x / y)%Q.

Definition ltb (x y : Q) : bool := negb (Qle_bool y x).

Definition to_int (x : Q) : result Z :=
  Ok (Z.quot (Qnum x) (Zpos (Qden x))).

Definition round (x : Q) : result Z :=
  let s := Qnum x <? 0 in
  Ok (IEEE.signed s (IEEE.nearest_even (Z.abs (Qnum x)) (Zpos (Qden x)))).

End Exact.

#[global] Instance exact_float : PyFloat Q := {|
  float_of_int := inject_Z;
  float_lit := fun q => q;
  fadd := Qplus;
  fsub := Qminus;
  fmul := Qmult;
  fdiv := Exact.div;
  fltb := Exact.ltb;
  int_of_float := Exact.to_int;
  round_float := Exact.round
|}.

(** ** PitchMapper: colors to notes to frequencies *)

Abbreviation RGB := (Z * Z * Z)%type.

(** Python's [format(n, "02x")]: lower-case hexadecimal, zero-filled to
    width 2, the sign counting in the width. *)
Definition hex_of_nonneg (n : Z) : string :=
  match n with
  | Zpos p => HexString.Raw.of_pos p ""
  | _ => "0"
  end.

Fixpoint zero_fill (pad : nat) (s : string) : string :=
  match pad with
  | O => s
  | Datatypes.S p => String "0" (zero_fill p s)
  end.

Definition zfill (width : nat) (s : string) : string :=
  zero_fill (width - String.length s) s.

Definition format_02x (n : Z) : string :=
  if n <? 0 then String "-" (zfill 1 (hex_of_nonneg (- n)))
  else zfill 2 (hex_of_nonneg n).

(** [rgb_to_hex]: [f"#{r:02x}{g:02x}{b:02x}"] *)
Definition rgb_to_hex (c : RGB) : string :=
  let '(r, g, b) := c in
  String "#" (format_02x r ++ format_02x g ++ format_02x b).

(** [str.lower] on ASCII. *)
Definition lower_ascii (c : ascii) : ascii :=
  let n := nat_of_ascii c in
  if ((65 <=? n) && (n <=? 90))%nat then ascii_of_nat (n + 32) else c.

Fixpoint str_lower (s : string) : string :=
  match s with
  | EmptyString => EmptyString
  | String c s' => String (lower_ascii c) (str_lower s')
  end.

(** [self.color_to_midi_map], assigned once in [__init__]. *)
Definition color_to_midi_map : gmap string Z :=
  <["#000000" := 36]> (<["#0a0a0a" := 38]> (<["#1a1a1a" := 40]>
    (<["#ffffff" := 60]> ∅))).

(** [self.update_interval], assigned once in [__init__]: 500 ms per beat. *)
Definition update_interval : Z := 500.

Section PitchMapper.
Context {F : Type} {num : PyFloat F} {libm : Libm F}.

(** [a / b] on two ints: true division, the float quotient of the two
    converted ints (correctly rounded below 2^53). *)
Definition truediv (a b : Z) : result F :=
  fdiv (float_of_int a) (float_of_int b).

(** [max(a, b)] and [min(a, b)] on floats: the first argument unless the
    second is strictly beyond it. *)
Definition py_max (a b : F) : F := if fltb a b then b else a.
Definition py_min (a b : F) : F := if fltb b a then b else a.

(** [midi_note_to_frequency]: [440 * (2 ** ((note - 69) / 12))] *)
Definition midi_note_to_frequency (note : Z) : result F :=
  e ← truediv (note - 69) 12;
  Ok (fmul (float_of_int 440) (float_pow (float_of_int 2) e)).

(** [int((v / 255) * 12)], the offset of one channel inside its band. *)
Definition semitone_offset (v : Z) : result Z :=
  x ← truediv v 255;
  int_of_float (fmul x (float_of_int 12)).

(** [color_to_midi_note(hex_color, rgb)]; [None] is an omitted argument. *)
Definition color_to_midi_note (hex_color : option string)
    (rgb : option RGB) : result Z :=
  let mapped :=
    match hex_color with
    | Some (String c h) => color_to_midi_map !! str_lower (String c h)
    | _ => None
    end in
  match mapped with
  | Some note => Ok note
  | None =>
      match rgb with
      | Some (r, g, b) =>
          ro ← semitone_offset r;
          let red_note := 36 + ro in
          go ← semitone_offset g;
          let green_note := 48 + go in
          bo ← semitone_offset b;
          let blue_note := 60 + bo in
          mean ← truediv (red_note + green_note + blue_note) 3;
          avg_note ← round_float mean;
          Ok (Z.max 36 (Z.min 96 avg_note))
      | None => Ok 60
      end
  end.

(** The note of a cell color, as [update_grid] computes it:
    [color_to_midi_note] applied to the color's [rgb_to_hex] string and
    to the color itself. *)
Definition note_for (c : RGB) : result Z :=
  color_to_midi_note (Some (rgb_to_hex c)) (Some c).

End PitchMapper.

(** ** ToneSynthesizer *)

(** A stereo buffer of 16-bit frames: the [(frames, 2)] array of [int16]. *)
Abbreviation Sound := (list (Z * Z)).

(** Storing a Python int into an [int16] cell keeps its low 16 bits
    (NumPy 1.x; NumPy 2 raises OverflowError for an int out of range). *)
Definition int16 (z : Z) : Z := (z + 2 ^ 15) mod 2 ^ 16 - 2 ^ 15.

(** [np.zeros((frames, 2), dtype=np.int16)] *)
Definition np_zeros (frames : Z) : result Sound :=
  if frames <? 0 then Raise ValueError else Ok (py_repeat (0, 0) frames).

(** [2**(16 - 1) - 1] *)
Definition max_sample : Z := 2 ^ (16 - 1) - 1.

(** [math.pi], the binary64 number 0x1.921fb54442d18p+1. *)
Definition math_pi : Q := (884279719003555 # 281474976710656)%Q.

Section ToneSynthesizer.
Context {F : Type} {num : PyFloat F} {libm : Libm F}.

(** [frames = int(duration * sample_rate)] *)
Definition tone_frames (duration : F) (sample_rate : Z) : result Z :=
  int_of_float (fmul duration (float_of_int sample_rate)).

(** The envelope of frame [i]: 1.0 unless one of the two fade branches
    is taken, the fade-in one being tested first. *)
Definition envelope (i frames sample_rate : Z) : result F :=
  let window := fmul (float_of_int sample_rate) (float_lit (1 # 100)) in
  if fltb (float_of_int i) window then
    fdiv (float_of_int i) window
  else if fltb (fsub (float_of_int frames) window) (float_of_int i) then
    fdiv (float_of_int (frames - i)) window
  else Ok (float_lit 1).

(** The body of the loop up to [sample]:
    [int(wave * max_sample * envelope * 0.3)]. *)
Definition tone_sample (frequency : F) (i frames sample_rate : Z)
    : result Z :=
  phase ← fdiv (fmul (fmul (fmul (float_of_int 2) (float_lit math_pi))
                           frequency) (float_of_int i))
               (float_of_int sample_rate);
  let wave := math_sin phase in
  env ← envelope i frames sample_rate;
  int_of_float (fmul (fmul (fmul wave (float_of_int max_sample)) env)
                     (float_lit (3 # 10))).

(** [arr[i][0] = sample; arr[i][1] = sample] *)
Definition store_frame (arr : Sound) (i sample : Z) : result Sound :=
  row ← py_getitem arr i;
  let row := (int16 sample, snd row) in
  let row := (fst row, int16 sample) in
  py_setitem arr i row.

(** [generate_tone(frequency, duration, sample_rate)] *)
Definition generate_tone (frequency duration : F) (sample_rate : Z)
    : result Sound :=
  frames ← tone_frames duration sample_rate;
  arr ← np_zeros frames;
  for_range frames (fun i arr =>
    sample ← tone_sample frequency i frames sample_rate;
    store_frame arr i sample) arr.

End ToneSynthesizer.

(** ** The screensaver object *)

Abbreviation Cell := (option RGB).

(** The attributes of [RGBGridScreensaver] that the update and draw
    methods read or write.  [cell_size] does not exist before the first
    [update_grid_size]; [current_sound] is the tone handed to the mixer. *)
Record State (F : Type) : Type := mkState {
  screen_width : Z;
  screen_height : Z;
  grid_cols : Z;
  grid_rows : Z;
  grid_data : list Cell;
  grid_index : Z;
  previous_cell_colors : list (option string);
  current_sound : option Sound;
  cell_size : option F;
  last_update : Z
}.

Arguments mkState {F}.
Arguments screen_width {F}.
Arguments screen_height {F}.
Arguments grid_cols {F}.
Arguments grid_rows {F}.
Arguments grid_data {F}.
Arguments grid_index {F}.
Arguments previous_cell_colors {F}.
Arguments current_sound {F}.
Arguments cell_size {F}.
Arguments last_update {F}.

Section Screensaver.
Context {F : Type} {num : PyFloat F} {libm : Libm F}.

Definition set_screen (w h : Z) (s : State F) : State F :=
  mkState w h (grid_cols s) (grid_rows s) (grid_data s) (grid_index s)
    (previous_cell_colors s) (current_sound s) (cell_size s) (last_update s).

Definition set_grid_data (d : list Cell) (s : State F) : State F :=
  mkState (screen_width s) (screen_height s) (grid_cols s) (grid_rows s) d
    (grid_index s) (previous_cell_colors s) (current_sound s) (cell_size s)
    (last_update s).

Definition set_grid_index (k : Z) (s : State F) : State F :=
  mkState (screen_width s) (screen_height s) (grid_cols s) (grid_rows s)
    (grid_data s) k (previous_cell_colors s) (current_sound s) (cell_size s)
    (last_update s).

Definition set_previous_cell_colors (p : list (option string))
    (s : State F) : State F :=
  mkState (screen_width s) (screen_height s) (grid_cols s) (grid_rows s)
    (grid_data s) (grid_index s) p (current_sound s) (cell_size s)
    (last_update s).

Definition set_current_sound (snd : option Sound) (s : State F) : State F :=
  mkState (screen_width s) (screen_height s) (grid_cols s) (grid_rows s)
    (grid_data s) (grid_index s) (previous_cell_colors s) snd (cell_size s)
    (last_update s).

Definition set_last_update (t : Z) (s : State F) : State F :=
  mkState (screen_width s) (screen_height s) (grid_cols s) (grid_rows s)
    (grid_data s) (grid_index s) (previous_cell_colors s) (current_sound s)
    (cell_size s) t.

(** The geometry assignments of [update_grid_size]. *)
Definition set_geometry (cols rows : Z) (size : F) (s : State F)
    : State F :=
  mkState (screen_width s) (screen_height s) cols rows (grid_data s)
    (grid_index s) (previous_cell_colors s) (current_sound s) (Some size)
    (last_update s).

(** [play_midi_note(note, velocity, duration)]: the tone in flight is
    stopped and dropped, then a new one is generated at the default
    sample rate and played.  [generate_tone] runs inside [try]: when it
    raises, the error is printed and no tone is kept.  The frequency is
    computed before the [try]. *)
Definition play_midi_note (note velocity : Z) (duration : F) (s : State F)
    : result (State F) :=
  let s := set_current_sound None s in
  frequency ← midi_note_to_frequency note;
  match generate_tone frequency duration 44100 with
  | Ok sound => Ok (set_current_sound (Some sound) s)
  | Raise _ => Ok s
  end.

(** [update_grid_size] *)
Definition update_grid_size (s : State F) : result (State F) :=
  let width := screen_width s in
  let height := screen_height s in
  let min_cell_size := 20 in
  let gap := 2 in
  q ← truediv (Z.min width height) 30;
  let target_cell_size := py_max (float_of_int min_cell_size) q in
  c ← fdiv (float_of_int (width + gap))
           (fadd target_cell_size (float_of_int gap));
  cols ← int_of_float c;
  r ← fdiv (float_of_int (height + gap))
           (fadd target_cell_size (float_of_int gap));
  rows ← int_of_float r;
  let cols := Z.max 10 cols in
  let rows := Z.max 10 rows in
  cell_width ← truediv (width - (cols - 1) * gap) cols;
  cell_height ← truediv (height - (rows - 1) * gap) rows;
  let s := set_geometry cols rows (py_min cell_width cell_height) s in
  let total_cells := cols * rows in
  if Z.of_nat (length (grid_data s)) =? total_cells then Ok s
  else
    let old_data := grid_data s in
    let fresh := py_repeat None total_cells in
    data ← match old_data with
           | [] => Ok fresh
           | _ :: _ =>
               let min_cells :=
                 Z.min (Z.of_nat (length old_data)) total_cells in
               for_range min_cells (fun i data =>
                 x ← py_getitem old_data i;
                 py_setitem data i x) fresh
           end;
    let s := set_grid_data data s in
    let s := if total_cells <=? grid_index s
             then set_grid_index total_cells s else s in
    Ok (set_previous_cell_colors (py_repeat None total_cells) s).

(** [int((r + g + b) / 3 / 255 * 127)], the velocity [update_grid]
    passes on. *)
Definition velocity_of (rgb_value : RGB) : result Z :=
  let '(r, g, b) := rgb_value in
  third ← truediv (r + g + b) 3;
  share ← fdiv third (float_of_int 255);
  int_of_float (fmul share (float_of_int 127)).

(** The second half of [update_grid], from [total_cells = ...] on: the
    color is written at the cursor, or appended after a left shift once
    the grid is full. *)
Definition write_cell (rgb_value : RGB) (s : State F) : result (State F) :=
  let total_cells := grid_cols s * grid_rows s in
  if total_cells <=? grid_index s then
    data ← for_range (total_cells - 1) (fun i data =>
              x ← py_getitem data (i + 1);
              py_setitem data i x) (grid_data s);
    data ← py_setitem data (total_cells - 1) (Some rgb_value);
    Ok (set_grid_data data s)
  else
    data ← py_setitem (grid_data s) (grid_index s) (Some rgb_value);
    Ok (set_grid_index (grid_index s + 1) (set_grid_data data s)).

(** [update_grid], with the color drawn by [generate_random_rgb] as its
    argument: the note of the color is played, then the color is
    written. *)
Definition update_grid (rgb_value : RGB) (s : State F) : result (State F) :=
  let hex_color := rgb_to_hex rgb_value in
  midi_note ← color_to_midi_note (Some hex_color) (Some rgb_value);
  velocity ← velocity_of rgb_value;
  s ← play_midi_note midi_note (Z.max 1 velocity) (float_lit (2 # 10)) s;
  write_cell rgb_value s.

(** [draw_grid], as far as the object is concerned: the pass over the
    cells that records each cell's color in [previous_cell_colors].  The
    rectangles and labels it sends to the display are not part of the
    state. *)
Definition draw_grid (s : State F) : result (State F) :=
  let total_cells := grid_cols s * grid_rows s in
  let previous :=
    if Z.of_nat (length (previous_cell_colors s)) =? total_cells
    then previous_cell_colors s else py_repeat None total_cells in
  previous ← for_range total_cells (fun i previous =>
    cell ← py_getitem (grid_data s) i;
    let current_color :=
      match cell with
      | Some rgb => rgb_to_hex rgb
      | None => "#0a0a0a"%string
      end in
    py_setitem previous i (Some current_color)) previous;
  Ok (set_previous_cell_colors previous s).

(** [__init__] on a display of [w] by [h] pixels. *)
Definition init (w h : Z) : result (State F) :=
  s ← update_grid_size (mkState w h 0 0 [] 0 [] None None 0);
  Ok (set_last_update 0 s).

(** *** The run loop *)

Inductive event : Type :=
  | QUIT
  | KEYDOWN (key : Z)
  | MOUSEBUTTONDOWN
  | OtherEvent.

Definition K_ESCAPE : Z := 27.

Definition handle_event (running : bool) (e : event) : bool :=
  match e with
  | QUIT => false
  | KEYDOWN key => if key =? K_ESCAPE then false else running
  | MOUSEBUTTONDOWN => false
  | OtherEvent => running
  end.

(** What one iteration reads from outside: the clock, the event queue,
    and the color [generate_random_rgb] returns if it is called. *)
Record tick : Type := mkTick {
  current_time : Z;
  events : list event;
  random_rgb : RGB
}.

(** The test of the update step:
    [current_time - self.last_update >= self.update_interval]. *)
Definition update_due (t : Z) (s : State F) : bool :=
  update_interval <=? t - last_update s.

(** One iteration of the [while running] loop; the flag returned is
    [running] at its end. *)
Definition loop_body (k : tick) (s : State F) : result (bool * State F) :=
  let running := foldl handle_event true (events k) in
  s ← (if update_due (current_time k) s then
         s ← update_grid (random_rgb k) s;
         Ok (set_last_update (current_time k) s)
       else Ok s);
  s ← draw_grid s;
  Ok (running, s).

(** The loop over the iterations [ks], up to the one that clears
    [running].  Beside the final state it returns the times at which the
    update step ran, in order. *)
Fixpoint run (ks : list tick) (s : State F) : result (list Z * State F) :=
  match ks with
  | [] => Ok ([], s)
  | k :: ks' =>
      let fired := if update_due (current_time k) s
                   then [current_time k] else [] in
      '(running, s) ← loop_body k s;
      if running : bool then
        '(log, s) ← run ks' s;
        Ok (fired ++ log, s)
      else Ok (fired, s)
  end.

End Screensaver.

(** * Vocabulary of the properties *)

(** ** Evaluation over a range of ints *)

(** [p] holds of the [n] ints from [start] on. *)
Fixpoint all_from (n : nat) (start : Z) (p : Z -> bool) : bool :=
  match n with
  | O => true
  | Datatypes.S k => p start && all_from k (start + 1) p
  end.

(** [p] holds of every int from 0 up to [n - 1]. *)
Definition all_below (n : nat) (p : Z -> bool) : bool := all_from n 0 p.

(** [r] is the value [z]. *)
Definition returns (r : result Z) (z : Z) : bool :=
  match r with
  | Ok a => a =? z
  | Raise _ => false
  end.

(** [r] is a value, not an exception. *)
Definition succeeds {A : Type} (r : result A) : bool :=
  match r with
  | Ok _ => true
  | Raise _ => false
  end.

(** ** Colors *)

(** A color as [generate_random_rgb] draws it: each channel in 0..255. *)
Definition channels_valid (c : RGB) : Prop :=
  let '(r, g, b) := c in
  0 <= r <= 255 /\ 0 <= g <= 255 /\ 0 <= b <= 255.

(** The note the averaging formula gives, in integer arithmetic. *)
Definition generative_note (c : RGB) : Z :=
  let '(r, g, b) := c in
  let red_note := 36 + 12 * r / 255 in
  let green_note := 48 + 12 * g / 255 in
  let blue_note := 60 + 12 * b / 255 in
  Z.max 36 (Z.min 96 ((2 * (red_note + green_note + blue_note) + 3) / 6)).

(** ** C libraries to run the model on *)

(** A C library to run the model on: a square wave for [math.sin], and a
    power that is exact on the two exponents 0 and 1.  Every statement
    below that depends on the C library quantifies over all of [Libm]. *)
Definition square_libm : Libm float := {|
  math_sin := fun x => if PrimFloat.ltb x 0 then (-1)%float else 1%float;
  float_pow := fun x y => if PrimFloat.eqb y 0 then 1%float else x
|}.


(** A C library whose [sin] returns [nan]: [int(nan)] raises ValueError,
    so every tone fails inside the [try] of [play_midi_note] and the
    program runs on without sound. *)
Definition mute_libm : Libm float := {|
  math_sin := fun _ => nan;
  float_pow := fun x _ => x
|}.

(** ** Buffers, grids and runs *)

Section Vocabulary.
Context {F : Type} {num : PyFloat F} {libm : Libm F}.

(** The state of the buffer after the frames below [k] are written. *)
Definition filled (frequency : F) (frames sample_rate : Z) (k : Z)
    (arr : Sound) : Prop :=
  Z.of_nat (length arr) = frames /\
  forall j, 0 <= j < k ->
    exists sample, tone_sample frequency j frames sample_rate = Ok sample /\
      arr !! Z.to_nat j = Some (int16 sample, int16 sample).

(** The capacity of the grid, [grid_cols * grid_rows]. *)
Definition capacity (s : State F) : Z := grid_cols s * grid_rows s.

(** The invariant of the grid store. *)
Definition grid_inv (s : State F) : Prop :=
  Z.of_nat (length (grid_data s)) = capacity s /\
  0 <= grid_index s <= capacity s.

(** The state of the grid after [i] steps of the left shift. *)
Definition shifted (old : list Cell) (i : Z) (d : list Cell) : Prop :=
  length d = length old /\
  forall k : nat,
    (Z.of_nat k < i -> d !! k = old !! Datatypes.S k) /\
    (i <= Z.of_nat k -> d !! k = old !! k).

(** The states of the object: the one [__init__] leaves, and those that
    a resize to another display size, an update, a redraw or a loop
    iteration lead to. *)
Inductive reachable : State F -> Prop :=
  | reach_init w h s :
      init w h = Ok s -> reachable s
  | reach_resize w h s s' :
      reachable s -> update_grid_size (set_screen w h s) = Ok s' ->
      reachable s'
  | reach_update c s s' :
      reachable s -> update_grid c s = Ok s' -> reachable s'
  | reach_draw s s' :
      reachable s -> draw_grid s = Ok s' -> reachable s'
  | reach_loop k s running s' :
      reachable s -> loop_body k s = Ok (running, s') -> reachable s'.

End Vocabulary.


(** The envelope on binary64 floats of the tone the program plays: 0.2 s
    at 44100 Hz, 8820 frames. *)
Definition ieee_envelope_value (i : Z) : float :=
  match envelope (F := float) i 8820 44100 with
  | Ok e => e
  | Raise _ => nan
  end.

(** Frames 0..440 fade in, frames 8380..8819 fade out, the rest are at
    1.0, and the two ramps are strict. *)
Definition ieee_envelope_check (i : Z) : bool :=
  let e := ieee_envelope_value i in
  if i <? 441 then
    PrimFloat.eqb e (PrimFloat.div (IEEE.of_Z i) 441%float)
    && PrimFloat.ltb e (ieee_envelope_value (i + 1))
  else if i <? 8380 then PrimFloat.eqb e 1%float
  else
    PrimFloat.eqb e (PrimFloat.div (IEEE.of_Z (8820 - i)) 441%float)
    && PrimFloat.ltb e (ieee_envelope_value (i - 1)).

(** On binary64 floats, frame [i] of the tone the program plays stays
    within the gain when the wave is at a peak: the square wave is 1 on
    the phases of a positive frequency and -1 on those of a negative one. *)
Definition ieee_peak_check (i : Z) : bool :=
  match tone_sample (libm := square_libm) 440%float i 8820 44100,
        tone_sample (libm := square_libm) (-440)%float i 8820 44100 with
  | Ok up, Ok down =>
      (0 <=? up) && (up <=? 9830) && (-9830 <=? down) && (down <=? 0)
  | _, _ => false
  end.

(** A grid of 10 by 11 cells, filled up to cell 105, on a display that now
    measures 200 by 200 pixels. *)
Definition grid_before_shrink : State float :=
  mkState 200 200 10 11 (py_repeat (Some (1, 2, 3)) 105 ++ py_repeat None 5)
    105 [] None None 0.

(** The same grid on a display of 200 by 300 pixels. *)
Definition grid_before_grow : State float :=
  set_screen 200 300 grid_before_shrink.

(** Consecutive times at least one interval apart, the first one counted
    from [last]. *)
Fixpoint spaced (last : Z) (log : list Z) : Prop :=
  match log with
  | [] => True
  | t :: log' => update_interval <= t - last /\ spaced t log'
  end.

(** A run of five iterations from a fresh 10 by 11 grid: the update runs
    at 500 and 1000 ms, not at 100 or 900, and the loop ends on Escape. *)
Definition sample_run : list tick :=
  [mkTick 100 [] (1, 2, 3); mkTick 500 [] (4, 5, 6);
   mkTick 900 [OtherEvent] (7, 7, 7); mkTick 1000 [KEYDOWN 27] (7, 8, 9);
   mkTick 2000 [] (0, 0, 0)].

(** The update times of [sample_run]. *)
Definition sample_log : result (list Z) :=
  s ← init (F := float) 200 250;
  '(log, _) ← run (libm := mute_libm) sample_run s;
  Ok log.

(** * More of the program *)

Section MoreModel.
Context {F : Type} {num : PyFloat F} {libm : Libm F}.

(** [get_text_color]: black text on a bright cell, white on a dark one. *)
Definition get_text_color (rgb : RGB) : result RGB :=
  let '(r, g, b) := rgb in
  brightness ← truediv (r * 299 + g * 587 + b * 114) 1000;
  Ok (if fltb (float_of_int 128) brightness then (0, 0, 0)
      else (255, 255, 255)).

(** Successive calls of [update_grid], one per color. *)
Fixpoint update_all (cs : list RGB) (s : State F) : result (State F) :=
  match cs with
  | [] => Ok s
  | c :: cs' => s ← update_grid c s; update_all cs' s
  end.

(** The grid of capacity [n] after the colors [h] were written into it,
    oldest first: the colors in order followed by unset cells, or, once
    more than [n] were written, the last [n] of them. *)
Definition grid_of (n : nat) (h : list RGB) : list Cell :=
  if (length h <=? n)%nat
  then (Some <$> h) ++ replicate (n - length h) None
  else Some <$> drop (length h - n) h.

(** The grid and the cursor of [s] are those of the history [h]. *)
Definition records (s : State F) (h : list RGB) : Prop :=
  grid_data s = grid_of (Z.to_nat (capacity s)) h /\
  grid_index s = Z.min (Z.of_nat (length h)) (capacity s).


End MoreModel.

(** An event that clears [running]. *)
Definition quits (e : event) : Prop :=
  match e with
  | QUIT => True
  | KEYDOWN key => key = K_ESCAPE
  | MOUSEBUTTONDOWN => True
  | OtherEvent => False
  end.

(** The value of two hexadecimal digits. *)
Definition hex_pair (a b : ascii) : option Z :=
  match HexString.ascii_to_digit a, HexString.ascii_to_digit b with
  | Some x, Some y => Some (Z.of_N (16 * x + y))
  | _, _ => None
  end.

(** The color a string [#rrggbb] denotes. *)
Definition parse_hex (s : string) : option RGB :=
  match s with
  | String "#" (String a (String b (String c (String d
      (String e (String f EmptyString)))))) =>
      match hex_pair a b, hex_pair c d, hex_pair e f with
      | Some r, Some g, Some b => Some (r, g, b)
      | _, _, _ => None
      end
  | _ => None
  end.

(** The two digits [format_02x] gives a channel value are lower-case and
    read back as the value. *)
Definition two_digits (v : Z) : bool :=
  match format_02x v with
  | String a (String b EmptyString) =>
      match hex_pair a b with
      | Some z => (z =? v) && Ascii.eqb (lower_ascii a) a
                  && Ascii.eqb (lower_ascii b) b
      | None => false
      end
  | _ => false
  end.

(** The note [color_to_midi_map] reserves for a color, if any. *)
Definition reserved_note (c : RGB) : option Z :=
  let '(r, g, b) := c in
  if (r =? 0) && (g =? 0) && (b =? 0) then Some 36
  else if (r =? 10) && (g =? 10) && (b =? 10) then Some 38
  else if (r =? 26) && (g =? 26) && (b =? 26) then Some 40
  else if (r =? 255) && (g =? 255) && (b =? 255) then Some 60
  else None.

(** On binary64 floats, [s / 1000 > 128] is [s > 128000]. *)
Definition brightness_check (s : Z) : bool :=
  Bool.eqb (PrimFloat.ltb 128%float
              (PrimFloat.div (IEEE.of_Z s) 1000%float))
           (128000 <? s).

(** * Properties *)

(** ** Exceptions and loops *)

Lemma bind_Ok_inv {A B : Type} (m : result A) (f : A -> result B) (b : B) :
  m ≫= f = Ok b -> exists a, m = Ok a /\ f a = Ok b.
Proof.
  destruct m as [a|e]; simpl; intros Hm.
  - exists a. split; [reflexivity | exact Hm].
  - discriminate Hm.
Qed.

Lemma bind_Ok {A B : Type} (a : A) (f : A -> result B) : Ok a ≫= f = f a.
Proof. reflexivity. Qed.

Lemma bind_assoc {A B C : Type} (m : result A) (f : A -> result B)
    (g : B -> result C) :
  m ≫= (fun a => f a ≫= g) = (m ≫= f) ≫= g.
Proof. destruct m; reflexivity. Qed.

Ltac bind_inv H :=
  let a := fresh "a" in
  let Ha := fresh "Ha" in
  apply bind_Ok_inv in H; destruct H as (a & Ha & H).

Section Loops.
Context {S : Type}.
Variable body : Z -> S -> result S.
Variable P : Z -> S -> Prop.

(** The invariant rule of a [for] loop whose body cannot raise while the
    invariant holds. *)
Lemma for_loop_total (n : nat) : forall (start : Z) (s : S),
  P start s ->
  (forall i st, start <= i < start + Z.of_nat n -> P i st ->
     exists st', body i st = Ok st' /\ P (i + 1) st') ->
  exists s', for_loop body start n s = Ok s' /\ P (start + Z.of_nat n) s'.
Proof.
  induction n as [|n IH]; intros start s Hs Hbody.
  - exists s. simpl. rewrite Z.add_0_r. auto.
  - destruct (Hbody start s) as (s1 & Hs1 & HP1); [lia | assumption |].
    destruct (IH (start + 1) s1 HP1) as (s' & Hrun & HP').
    + intros i st Hi. apply Hbody. lia.
    + exists s'. simpl. rewrite Hs1. simpl. split; [exact Hrun|].
      replace (start + Z.of_nat (Datatypes.S n))
        with (start + 1 + Z.of_nat n) by lia.
      exact HP'.
Qed.

(** The same rule for a body that may raise: whatever the loop returns
    satisfies the invariant. *)
Lemma for_loop_partial (n : nat) : forall (start : Z) (s s' : S),
  P start s ->
  (forall i st st', start <= i < start + Z.of_nat n -> P i st ->
     body i st = Ok st' -> P (i + 1) st') ->
  for_loop body start n s = Ok s' -> P (start + Z.of_nat n) s'.
Proof.
  induction n as [|n IH]; intros start s s' Hs Hbody Hrun.
  - simpl in Hrun. inversion Hrun; subst. rewrite Z.add_0_r. exact Hs.
  - simpl in Hrun. bind_inv Hrun.
    replace (start + Z.of_nat (Datatypes.S n))
      with (start + 1 + Z.of_nat n) by lia.
    apply (IH (start + 1) a s'); [| |exact Hrun].
    + apply (Hbody start s); [lia | assumption | assumption].
    + intros i st st' Hi. apply Hbody. lia.
Qed.

Lemma for_range_total (n : Z) (s : S) :
  P 0 s ->
  (forall i st, 0 <= i < n -> P i st ->
     exists st', body i st = Ok st' /\ P (i + 1) st') ->
  exists s', for_range n body s = Ok s' /\ P (Z.max 0 n) s'.
Proof.
  intros Hs Hbody. unfold for_range.
  destruct (for_loop_total (Z.to_nat n) 0 s Hs) as (s' & Hrun & HP).
  - intros i st Hi. apply Hbody. lia.
  - exists s'. split; [exact Hrun|].
    replace (Z.max 0 n) with (0 + Z.of_nat (Z.to_nat n)) by lia. exact HP.
Qed.

Lemma for_range_partial (n : Z) (s s' : S) :
  P 0 s ->
  (forall i st st', 0 <= i < n -> P i st -> body i st = Ok st' ->
     P (i + 1) st') ->
  for_range n body s = Ok s' -> P (Z.max 0 n) s'.
Proof.
  intros Hs Hbody Hrun. unfold for_range in Hrun.
  replace (Z.max 0 n) with (0 + Z.of_nat (Z.to_nat n)) by lia.
  apply (for_loop_partial (Z.to_nat n) 0 s s' Hs); [|exact Hrun].
  intros i st st' Hi. apply Hbody. lia.
Qed.

End Loops.

(** ** Python lists *)

Section PyLists.
Context {A : Type}.
Implicit Types (l : list A) (i : Z) (x : A).

Lemma py_index_in_range (len : nat) i :
  0 <= i < Z.of_nat len -> py_index len i = Ok (Z.to_nat i).
Proof.
  intros Hi. unfold py_index.
  destruct (Z.leb_spec 0 i); [|lia].
  destruct (Z.ltb_spec i (Z.of_nat len)); [|lia]. reflexivity.
Qed.

Lemma py_index_bound (len : nat) i (k : nat) :
  py_index len i = Ok k -> (k < len)%nat.
Proof.
  unfold py_index.
  destruct (Z.leb_spec 0 i); destruct (Z.ltb_spec i (Z.of_nat len));
    simpl; try (intros [= <-]; lia).
  - destruct (Z.leb_spec (- Z.of_nat len) i); destruct (Z.ltb_spec i 0);
      simpl; try discriminate; intros [= <-]; lia.
  - destruct (Z.leb_spec (- Z.of_nat len) i); destruct (Z.ltb_spec i 0);
      simpl; try discriminate; intros [= <-]; lia.
  - destruct (Z.leb_spec (- Z.of_nat len) i); destruct (Z.ltb_spec i 0);
      simpl; try discriminate; intros [= <-]; lia.
Qed.

Lemma py_getitem_in_range l i :
  0 <= i < Z.of_nat (length l) ->
  exists x, py_getitem l i = Ok x /\ l !! Z.to_nat i = Some x.
Proof.
  intros Hi. unfold py_getitem. rewrite py_index_in_range by exact Hi.
  simpl. destruct (lookup_lt_is_Some_2 l (Z.to_nat i)) as [x Hx]; [lia|].
  exists x. rewrite Hx. auto.
Qed.

Lemma py_setitem_in_range l i x :
  0 <= i < Z.of_nat (length l) ->
  py_setitem l i x = Ok (<[Z.to_nat i := x]> l).
Proof.
  intros Hi. unfold py_setitem. rewrite py_index_in_range by exact Hi.
  reflexivity.
Qed.

Lemma py_setitem_length l l' i x :
  py_setitem l i x = Ok l' -> length l' = length l.
Proof.
  unfold py_setitem. intros H. bind_inv H. inversion H; subst.
  apply length_insert.
Qed.

Lemma py_setitem_empty i x : py_setitem ([] : list A) i x = Raise IndexError.
Proof.
  unfold py_setitem, py_index. cbn [length].
  change (Z.of_nat 0) with 0. change (- 0) with 0.
  destruct (Z.leb_spec 0 i); destruct (Z.ltb_spec i 0); simpl;
    reflexivity || lia.
Qed.

Lemma py_repeat_length x (n : Z) :
  Z.of_nat (length (py_repeat x n)) = Z.max 0 n.
Proof. unfold py_repeat. rewrite length_replicate. lia. Qed.

Lemma py_repeat_lookup x (n : Z) (k : nat) :
  Z.of_nat k < n -> py_repeat x n !! k = Some x.
Proof. intros Hk. unfold py_repeat. apply lookup_replicate_2. lia. Qed.

End PyLists.

(** ** Checking a property of every int below a bound by evaluation *)

Lemma all_from_spec (n : nat) (p : Z -> bool) : forall start,
  all_from n start p = true ->
  forall v, start <= v < start + Z.of_nat n -> p v = true.
Proof.
  induction n as [|n IH]; intros start Hall v Hv; [lia|].
  simpl in Hall. apply andb_prop in Hall as [Hstart Hrest].
  destruct (Z.eq_dec v start) as [->|Hne]; [exact Hstart|].
  apply (IH (start + 1) Hrest). lia.
Qed.

Lemma all_below_spec (n : nat) (p : Z -> bool) :
  all_below n p = true -> forall v, 0 <= v < Z.of_nat n -> p v = true.
Proof.
  intros Hall v Hv. apply (all_from_spec n p 0 Hall). lia.
Qed.

Lemma returns_spec (r : result Z) (z : Z) : returns r z = true -> r = Ok z.
Proof.
  destruct r as [a|e]; simpl; [|discriminate].
  intros Ha. apply Z.eqb_eq in Ha. congruence.
Qed.

Lemma succeeds_spec {A : Type} (r : result A) :
  succeeds r = true -> exists a, r = Ok a.
Proof. destruct r as [a|e]; [eauto | discriminate]. Qed.

(** ** PitchMapper on binary64 floats *)

Module Pitch.

(** On binary64 floats the offset of a channel value is [12 v / 255]
    rounded down: float rounding never crosses an integer on the 256
    channel values. *)
Lemma semitone_offset_floor (v : Z) :
  0 <= v <= 255 -> semitone_offset (F := float) v = Ok (12 * v / 255).
Proof.
  intros Hv. apply returns_spec.
  apply (all_below_spec 256
           (fun v => returns (semitone_offset (F := float) v) (12 * v / 255)));
    [vm_compute; reflexivity | lia].
Qed.

(** The mean of three notes, [round(s / 3)], on the sums that occur. *)
Lemma mean_note_round (s : Z) :
  0 <= s <= 255 ->
  truediv (F := float) s 3 ≫= round_float = Ok ((2 * s + 3) / 6).
Proof.
  intros Hs. apply returns_spec.
  apply (all_below_spec 256
           (fun s => returns (truediv (F := float) s 3 ≫= round_float)
                             ((2 * s + 3) / 6)));
    [vm_compute; reflexivity | lia].
Qed.

Lemma offset_bounds (v : Z) : 0 <= v <= 255 -> 0 <= 12 * v / 255 <= 12.
Proof.
  intros Hv. split.
  - apply Z.div_pos; lia.
  - apply Z.div_le_upper_bound; lia.
Qed.

Lemma color_to_midi_note_generative (c : RGB) :
  channels_valid c ->
  color_to_midi_note (F := float) None (Some c) = Ok (generative_note c).
Proof.
  destruct c as [[r g] b]. intros (Hr & Hg & Hb).
  unfold color_to_midi_note, generative_note.
  rewrite !semitone_offset_floor by assumption. rewrite !bind_Ok.
  pose proof (offset_bounds r Hr). pose proof (offset_bounds g Hg).
  pose proof (offset_bounds b Hb).
  rewrite bind_assoc, mean_note_round by lia. reflexivity.
Qed.

Lemma color_to_midi_map_notes (k : string) (note : Z) :
  color_to_midi_map !! k = Some note ->
  note = 36 \/ note = 38 \/ note = 40 \/ note = 60.
Proof.
  unfold color_to_midi_map.
  rewrite !lookup_insert_Some, lookup_empty. intuition congruence.
Qed.

(** A reserved color takes its note from the table, any other color from
    the averaging formula. *)
Lemma note_for_cases (c : RGB) :
  channels_valid c ->
  exists n, note_for (F := float) c = Ok n /\
    (color_to_midi_map !! str_lower (rgb_to_hex c) = Some n \/
     n = generative_note c).
Proof.
  intros Hc. unfold note_for.
  pose proof (color_to_midi_note_generative c Hc) as Hgen.
  destruct c as [[r g] b].
  unfold color_to_midi_note in *. unfold rgb_to_hex at 1.
  destruct (color_to_midi_map !! str_lower (rgb_to_hex (r, g, b)))
    as [note|] eqn:Hmap; unfold rgb_to_hex in Hmap; rewrite Hmap.
  - exists note. auto.
  - exists (generative_note (r, g, b)). split; [exact Hgen | auto].
Qed.

End Pitch.

(** C3, at the channel value 255: [int((255 / 255) * 12)] is 12, so the
    offset is not strictly below 12 and the red note 36 + 12 is C3, one
    past the band C2-B2 the source comments give it. *)
Theorem semitone_offset_at_255 :
  semitone_offset (F := float) 255 = Ok 12 /\
  color_to_midi_note (F := float) None (Some (255, 0, 0))
    = Ok ((36 + 12 + 48 + 60) / 3).
Proof. split; vm_compute; reflexivity. Qed.

(** What does hold of the offset: it lies in [0, 12], and reaches 12 only
    at the channel value 255. *)
Lemma semitone_offset_range (v : Z) :
  0 <= v <= 255 ->
  exists o, semitone_offset (F := float) v = Ok o /\ 0 <= o <= 12 /\
            (o = 12 <-> v = 255).
Proof.
  intros Hv. exists (12 * v / 255).
  split; [apply Pitch.semitone_offset_floor; exact Hv|].
  split; [apply Pitch.offset_bounds; exact Hv|].
  split.
  - intros Ho. destruct (Z.eq_dec v 255) as [|Hne]; [assumption|].
    assert (12 * v / 255 < 12) by (apply Z.div_lt_upper_bound; lia). lia.
  - intros ->. reflexivity.
Qed.

(** C4: on binary64 floats, the note of every color with channels in
    [0, 255] exists and lies in [36, 96]. *)
Theorem note_for_in_range (r g b : Z) :
  0 <= r <= 255 -> 0 <= g <= 255 -> 0 <= b <= 255 ->
  exists n, note_for (F := float) (r, g, b) = Ok n /\ 36 <= n <= 96.
Proof.
  intros Hr Hg Hb.
  destruct (Pitch.note_for_cases (r, g, b)) as (n & Hn & Hcase);
    [repeat split; lia|].
  exists n. split; [exact Hn|].
  destruct Hcase as [Hmap | ->].
  - apply Pitch.color_to_midi_map_notes in Hmap. lia.
  - unfold generative_note. lia.
Qed.

Lemma note_for_in_range_witness :
  exists n, note_for (F := float) (85, 170, 254) = Ok n /\ 36 <= n <= 96.
Proof. apply (note_for_in_range 85 170 254); lia. Defined.

(** C5: the four reserved colors get their fixed notes from the table,
    whatever the float arithmetic, although the averaging formula would
    send black and the two grays elsewhere (48, 48 and 49). *)
Theorem reserved_colors_bypass :
  (forall (F : Type) (num : PyFloat F),
     note_for (F := F) (0, 0, 0) = Ok 36 /\
     note_for (F := F) (10, 10, 10) = Ok 38 /\
     note_for (F := F) (26, 26, 26) = Ok 40 /\
     note_for (F := F) (255, 255, 255) = Ok 60) /\
  color_to_midi_note (F := float) None (Some (0, 0, 0)) = Ok 48 /\
  color_to_midi_note (F := float) None (Some (10, 10, 10)) = Ok 48 /\
  color_to_midi_note (F := float) None (Some (26, 26, 26)) = Ok 49 /\
  color_to_midi_note (F := float) None (Some (255, 255, 255)) = Ok 60.
Proof.
  split.
  - intros F num. repeat split; vm_compute; reflexivity.
  - repeat split; vm_compute; reflexivity.
Qed.

(** ** ToneSynthesizer: the buffer *)

Section ToneBuffer.
Context {F : Type} {num : PyFloat F} {libm : Libm F}.

Lemma np_zeros_length (frames : Z) (arr : Sound) :
  np_zeros frames = Ok arr -> 0 <= frames /\ Z.of_nat (length arr) = frames.
Proof.
  unfold np_zeros. destruct (Z.ltb_spec frames 0); [discriminate|].
  intros [= <-]. rewrite py_repeat_length. lia.
Qed.

Lemma store_frame_length (arr arr' : Sound) (i sample : Z) :
  store_frame arr i sample = Ok arr' -> length arr' = length arr.
Proof.
  unfold store_frame. intros Hs. bind_inv Hs.
  exact (py_setitem_length _ _ _ _ Hs).
Qed.

Lemma store_frame_in_range (arr : Sound) (i sample : Z) :
  0 <= i < Z.of_nat (length arr) ->
  store_frame arr i sample
    = Ok (<[Z.to_nat i := (int16 sample, int16 sample)]> arr).
Proof.
  intros Hi. unfold store_frame.
  destruct (py_getitem_in_range arr i Hi) as (row & -> & _).
  rewrite bind_Ok. apply py_setitem_in_range. exact Hi.
Qed.

Lemma filled_step (frequency : F) (frames sample_rate i : Z)
    (arr arr' : Sound) (sample : Z) :
  0 <= i < frames ->
  filled frequency frames sample_rate i arr ->
  tone_sample frequency i frames sample_rate = Ok sample ->
  store_frame arr i sample = Ok arr' ->
  filled frequency frames sample_rate (i + 1) arr'.
Proof.
  intros Hi [Hlen Hdone] Hsample Hstore.
  rewrite store_frame_in_range in Hstore by lia.
  injection Hstore as <-. split.
  - rewrite length_insert. exact Hlen.
  - intros j Hj. destruct (Z.eq_dec j i) as [->|Hne].
    + exists sample. split; [exact Hsample|].
      apply list_lookup_insert_eq. lia.
    + destruct (Hdone j) as (sj & Hsj & Hlook); [lia|].
      exists sj. split; [exact Hsj|].
      rewrite list_lookup_insert_ne by lia. exact Hlook.
Qed.

(** Whatever [generate_tone] returns has [int(duration * sample_rate)]
    frames, each holding the sample of its index on both channels. *)
Lemma generate_tone_filled (frequency duration : F) (sample_rate : Z)
    (buf : Sound) :
  generate_tone frequency duration sample_rate = Ok buf ->
  exists frames, tone_frames duration sample_rate = Ok frames /\
    0 <= frames /\ filled frequency frames sample_rate frames buf.
Proof.
  unfold generate_tone. intros Hgen.
  apply bind_Ok_inv in Hgen as (frames & Hframes & Hgen).
  apply bind_Ok_inv in Hgen as (arr & Harr & Hloop).
  apply np_zeros_length in Harr as [Hpos Hlen].
  exists frames. split; [exact Hframes|]. split; [exact Hpos|].
  replace frames with (Z.max 0 frames) at 2 by lia.
  eapply (for_range_partial _
            (filled frequency frames sample_rate)); [| |exact Hloop].
  - split; [exact Hlen | intros j Hj; lia].
  - intros i st st' Hi Hst Hbody.
    apply bind_Ok_inv in Hbody as (sample & Hsample & Hstore).
    exact (filled_step _ _ _ _ _ _ _ Hi Hst Hsample Hstore).
Qed.

(** If every sample can be computed, the tone is produced. *)
Lemma generate_tone_total (frequency duration : F)
    (sample_rate frames : Z) :
  tone_frames duration sample_rate = Ok frames ->
  0 <= frames ->
  (forall i, 0 <= i < frames ->
     exists sample, tone_sample frequency i frames sample_rate = Ok sample) ->
  exists buf, generate_tone frequency duration sample_rate = Ok buf /\
    filled frequency frames sample_rate frames buf.
Proof.
  intros Hframes Hpos Hsamples. unfold generate_tone.
  rewrite Hframes, bind_Ok. unfold np_zeros.
  destruct (Z.ltb_spec frames 0); [lia|]. rewrite bind_Ok.
  destruct (for_range_total
              (fun i arr =>
                 sample ← tone_sample frequency i frames sample_rate;
                 store_frame arr i sample)
              (filled frequency frames sample_rate) frames
              (py_repeat (0, 0) frames)) as (buf & Hrun & Hfilled).
  - split; [rewrite py_repeat_length; lia | intros j Hj; lia].
  - intros i st Hi Hst. destruct (Hsamples i Hi) as (sample & Hsample).
    rewrite Hsample, bind_Ok.
    rewrite store_frame_in_range by (destruct Hst; lia).
    eexists. split; [reflexivity|].
    eapply filled_step; [exact Hi | exact Hst | exact Hsample |].
    apply store_frame_in_range. destruct Hst; lia.
  - exists buf. split; [exact Hrun|].
    replace (Z.max 0 frames) with frames in Hfilled by lia. exact Hfilled.
Qed.

End ToneBuffer.

(** ** ToneSynthesizer in exact arithmetic *)

Module ExactTone.


















Section Samples.
Context {libm : Libm Q}.
Hypothesis sin_range : forall x : Q, (-1 <= math_sin x <= 1)%Q.




End Samples.
End ExactTone.

(** C2, as the code has it: the buffer has [int(duration * sample_rate)]
    frames, the product truncated toward zero.  Whatever [generate_tone]
    returns has that many frames; a negative count raises ValueError; and
    when the count is not negative and every sample can be computed, the
    buffer is returned. *)
Theorem generate_tone_frame_count {F : Type} {num : PyFloat F}
    {libm : Libm F} (frequency duration : F) (sample_rate frames : Z) :
  tone_frames duration sample_rate = Ok frames ->
  (forall buf, generate_tone frequency duration sample_rate = Ok buf ->
     Z.of_nat (length buf) = frames) /\
  (frames < 0 ->
     generate_tone frequency duration sample_rate = Raise ValueError) /\
  (0 <= frames ->
   (forall i, 0 <= i < frames ->
      exists sample, tone_sample frequency i frames sample_rate = Ok sample) ->
   exists buf, generate_tone frequency duration sample_rate = Ok buf /\
     Z.of_nat (length buf) = frames).
Proof.
  intros Hframes. repeat split.
  - intros buf Hgen.
    destruct (generate_tone_filled _ _ _ _ Hgen) as (n & Hn & _ & Hlen & _).
    congruence.
  - intros Hneg. unfold generate_tone. rewrite Hframes, bind_Ok.
    unfold np_zeros. destruct (Z.ltb_spec frames 0); [reflexivity | lia].
  - intros Hpos Hsamples.
    destruct (generate_tone_total frequency duration sample_rate frames
                Hframes Hpos Hsamples) as (buf & Hgen & Hlen & _).
    exists buf. auto.
Qed.

Lemma generate_tone_frame_count_witness :
  exists buf,
    generate_tone (libm := square_libm) 440%float (float_lit (2 # 10000)) 44100
      = Ok buf /\ Z.of_nat (length buf) = 8.
Proof.
  apply (generate_tone_frame_count (libm := square_libm)
           440%float (float_lit (2 # 10000)) 44100 8).
  - vm_compute. reflexivity.
  - lia.
  - intros i Hi. apply succeeds_spec.
    apply (all_below_spec 8
             (fun i => succeeds (tone_sample (libm := square_libm)
                                   440%float i 8 44100)));
      [vm_compute; reflexivity | lia].
Defined.

(** C2 as stated fails: 0.0002 s at 44100 Hz is 8.82 frames, which
    [round] takes to 9, and the buffer has 8. *)
Lemma generate_tone_not_rounded :
  round_float (fmul (float_lit (2 # 10000)) (float_of_int 44100) : float)
    = Ok 9 /\
  tone_frames (F := float) (float_lit (2 # 10000)) 44100 = Ok 8 /\
  (exists buf,
     generate_tone (libm := square_libm) 440%float (float_lit (2 # 10000))
       44100 = Ok buf /\ length buf = 8%nat) /\
  (forall (libm : Libm float) (frequency : float) (buf : Sound),
     generate_tone frequency (float_lit (2 # 10000)) 44100 = Ok buf ->
     Z.of_nat (length buf) <> 9).
Proof.
  split; [vm_compute; reflexivity|].
  split; [vm_compute; reflexivity|].
  split.
  - eexists. split; vm_compute; reflexivity.
  - intros libm frequency buf Hgen.
    destruct (generate_tone_filled _ _ _ _ Hgen)
      as (frames & Hframes & _ & Hlen & _).
    assert (tone_frames (F := float) (float_lit (2 # 10000)) 44100 = Ok 8)
      as Height by (vm_compute; reflexivity).
    rewrite Height in Hframes. injection Hframes as <-. lia.
Qed.




(** On binary64 floats the tone the program plays has the same envelope:
    a strict ramp up over frames 0..440, a plateau at 1.0, a strict ramp
    down over frames 8380..8819. *)
Lemma envelope_ieee_default (i : Z) :
  0 <= i < 8820 -> ieee_envelope_check i = true.
Proof.
  intros Hi. apply (all_below_spec (Z.to_nat 8820) ieee_envelope_check);
    [vm_compute; reflexivity | lia].
Qed.

(** On binary64 floats, the samples of the tone the program plays are
    within the gain at the peaks of a full-scale wave, and reach 9830 on
    the plateau. *)
Lemma tone_sample_ieee_peak (i : Z) :
  0 <= i < 8820 -> ieee_peak_check i = true.
Proof.
  intros Hi. apply (all_below_spec (Z.to_nat 8820) ieee_peak_check);
    [vm_compute; reflexivity | lia].
Qed.

Lemma tone_sample_ieee_plateau :
  tone_sample (libm := square_libm) 440%float 4410 8820 44100 = Ok 9830.
Proof. vm_compute. reflexivity. Qed.



(** ** GridStore *)

Section GridStore.
Context {F : Type} {num : PyFloat F} {libm : Libm F}.

(** *** Copy and shift loops *)

(** The loop of [update_grid_size] that copies the head of the old grid
    into the fresh one. *)
Lemma copy_loop (old fresh data : list Cell) (n : Z) :
  n <= Z.of_nat (length old) -> n <= Z.of_nat (length fresh) ->
  for_range n (fun i data => x ← py_getitem old i; py_setitem data i x)
    fresh = Ok data ->
  length data = length fresh /\
  forall k : nat,
    (Z.of_nat k < n -> data !! k = old !! k) /\
    (n <= Z.of_nat k -> data !! k = fresh !! k).
Proof.
  intros Hold Hfresh Hloop.
  pose (P := fun (i : Z) (d : list Cell) =>
    length d = length fresh /\
    forall k : nat,
      (Z.of_nat k < i -> d !! k = old !! k) /\
      (i <= Z.of_nat k -> d !! k = fresh !! k)).
  assert (P (Z.max 0 n) data) as [Hlen Hdata].
  { eapply (for_range_partial _ P); [| |exact Hloop].
    - split; [reflexivity|]. intros k. split; [lia | reflexivity].
    - intros i d d' Hi [Hlen Hd] Hbody.
      apply bind_Ok_inv in Hbody as (x & Hget & Hset).
      destruct (py_getitem_in_range old i) as (x' & Hget' & Hx); [lia|].
      rewrite Hget' in Hget. injection Hget as ->.
      rewrite py_setitem_in_range in Hset by lia. injection Hset as <-.
      split; [rewrite length_insert; exact Hlen|].
      intros k. destruct (Nat.eq_dec k (Z.to_nat i)) as [->|Hne].
      + split; [|lia]. intros _.
        rewrite list_lookup_insert_eq by lia. symmetry. exact Hx.
      + rewrite list_lookup_insert_ne by lia. split; intros Hk.
        * apply Hd. lia.
        * apply Hd. lia. }
  split; [exact Hlen|]. intros k. split; intros Hk; apply Hdata; lia.
Qed.

Lemma shift_step (old d d' : list Cell) (i : Z) (x : Cell) :
  0 <= i -> i + 1 < Z.of_nat (length old) ->
  shifted old i d ->
  py_getitem d (i + 1) = Ok x -> py_setitem d i x = Ok d' ->
  shifted old (i + 1) d'.
Proof.
  intros Hi Hlt [Hlen Hd] Hget Hset.
  destruct (py_getitem_in_range d (i + 1)) as (x' & Hget' & Hx); [lia|].
  rewrite Hget' in Hget. injection Hget as ->.
  rewrite py_setitem_in_range in Hset by lia. injection Hset as <-.
  split; [rewrite length_insert; exact Hlen|].
  intros k. destruct (Nat.eq_dec k (Z.to_nat i)) as [->|Hne].
  - split; [|lia]. intros _. rewrite list_lookup_insert_eq by lia.
    rewrite <- Hx. replace (Z.to_nat (i + 1)) with (Datatypes.S (Z.to_nat i))
      by lia.
    apply Hd. lia.
  - rewrite list_lookup_insert_ne by lia. split; intros Hk; apply Hd; lia.
Qed.

(** The shift loop of a full grid cannot raise. *)
Lemma shift_loop_total (old : list Cell) :
  exists data,
    for_range (Z.of_nat (length old) - 1)
      (fun i data => x ← py_getitem data (i + 1); py_setitem data i x) old
      = Ok data /\
    shifted old (Z.max 0 (Z.of_nat (length old) - 1)) data.
Proof.
  apply (for_range_total _ (shifted old)).
  - split; [reflexivity|]. intros k. split; [lia | reflexivity].
  - intros i d Hi Hd.
    destruct (py_getitem_in_range d (i + 1)) as (x & Hget & _);
      [destruct Hd; lia|].
    rewrite Hget, bind_Ok.
    rewrite py_setitem_in_range by (destruct Hd; lia).
    eexists. split; [reflexivity|].
    eapply shift_step; [| |exact Hd|exact Hget|]; [lia | lia |].
    apply py_setitem_in_range. destruct Hd; lia.
Qed.

(** Whatever a loop of item assignments returns has the length it
    started with. *)
Lemma shift_loop_length (n : Z) (old data : list Cell) :
  for_range n (fun i data => x ← py_getitem data (i + 1);
                              py_setitem data i x) old = Ok data ->
  length data = length old.
Proof.
  intros Hloop.
  refine (for_range_partial _ (fun _ d => length d = length old) n old data
            eq_refl _ Hloop).
  intros i d d' _ Hd Hbody. apply bind_Ok_inv in Hbody as (x & _ & Hset).
  rewrite (py_setitem_length _ _ _ _ Hset). exact Hd.
Qed.


(** *** Writing a cell *)

(** On a full grid the color is appended after a left shift. *)
Lemma write_cell_full (c : RGB) (s : State F) :
  Z.of_nat (length (grid_data s)) = capacity s ->
  capacity s <= grid_index s -> 0 < capacity s ->
  exists data,
    write_cell c s = Ok (set_grid_data data s) /\
    length data = length (grid_data s) /\
    (forall k : nat, Z.of_nat k < capacity s - 1 ->
       data !! k = grid_data s !! Datatypes.S k) /\
    data !! Z.to_nat (capacity s - 1) = Some (Some c).
Proof.
  unfold capacity. intros Hlen Hfull Hpos. unfold write_cell.
  destruct (Z.leb_spec (grid_cols s * grid_rows s) (grid_index s)); [|lia].
  destruct (shift_loop_total (grid_data s)) as (d & Hloop & Hdlen & Hd).
  rewrite Hlen in Hloop. rewrite Hloop, bind_Ok.
  rewrite py_setitem_in_range by lia. rewrite bind_Ok.
  eexists. split; [reflexivity|].
  split; [rewrite length_insert; exact Hdlen|]. split.
  - intros k Hk. rewrite list_lookup_insert_ne by lia. apply Hd. lia.
  - apply list_lookup_insert_eq. lia.
Qed.

(** Below capacity the color is written at the cursor, which moves on. *)
Lemma write_cell_free (c : RGB) (s : State F) :
  Z.of_nat (length (grid_data s)) = capacity s ->
  0 <= grid_index s < capacity s ->
  write_cell c s =
    Ok (set_grid_index (grid_index s + 1)
          (set_grid_data (<[Z.to_nat (grid_index s) := Some c]> (grid_data s))
             s)).
Proof.
  unfold capacity. intros Hlen Hidx. unfold write_cell.
  destruct (Z.leb_spec (grid_cols s * grid_rows s) (grid_index s)); [lia|].
  rewrite py_setitem_in_range by lia. reflexivity.
Qed.

Lemma write_cell_inv (c : RGB) (s s' : State F) :
  grid_inv s -> write_cell c s = Ok s' -> grid_inv s'.
Proof.
  unfold grid_inv, capacity. intros [Hlen Hidx]. unfold write_cell.
  destruct (Z.leb_spec (grid_cols s * grid_rows s) (grid_index s)).
  - intros Hw. apply bind_Ok_inv in Hw as (d & Hloop & Hw).
    apply bind_Ok_inv in Hw as (d' & Hset & Hw). injection Hw as <-.
    apply shift_loop_length in Hloop. apply py_setitem_length in Hset.
    simpl. split; [congruence | lia].
  - intros Hw. apply bind_Ok_inv in Hw as (d & Hset & Hw).
    injection Hw as <-. apply py_setitem_length in Hset.
    simpl. split; [congruence | lia].
Qed.

(** *** Playing a note leaves the grid alone *)

Lemma play_midi_note_sound (note velocity : Z) (duration : F)
    (s s' : State F) :
  play_midi_note note velocity duration s = Ok s' ->
  exists sound, s' = set_current_sound sound s.
Proof.
  unfold play_midi_note. intros Hplay.
  apply bind_Ok_inv in Hplay as (frequency & _ & Hplay).
  destruct (generate_tone frequency duration 44100) as [sound|e];
    injection Hplay as <-.
  - exists (Some sound). destruct s; reflexivity.
  - exists None. reflexivity.
Qed.

Lemma update_grid_write (c : RGB) (s s' : State F) :
  update_grid c s = Ok s' ->
  exists sound, write_cell c (set_current_sound sound s) = Ok s'.
Proof.
  unfold update_grid. intros Hup.
  apply bind_Ok_inv in Hup as (note & _ & Hup).
  apply bind_Ok_inv in Hup as (velocity & _ & Hup).
  apply bind_Ok_inv in Hup as (s1 & Hplay & Hup).
  apply play_midi_note_sound in Hplay as (sound & ->).
  exists sound. exact Hup.
Qed.

(** *** Resizing *)

(** What [update_grid_size] does to the grid: the new dimensions are at
    least 10 by 10; when the capacity changes, the cells are copied by
    position up to the smaller capacity, the rest of the new grid is
    empty, and the cursor is cut down to the new capacity. *)
Lemma update_grid_size_spec (s s' : State F) :
  update_grid_size s = Ok s' ->
  let A := Z.of_nat (length (grid_data s)) in
  let B := capacity s' in
  10 <= grid_cols s' /\ 10 <= grid_rows s' /\
  Z.of_nat (length (grid_data s')) = B /\
  (forall k : nat, Z.of_nat k < Z.min A B ->
     grid_data s' !! k = grid_data s !! k) /\
  (forall k : nat, A <= Z.of_nat k < B -> grid_data s' !! k = Some None) /\
  (A <> B -> grid_index s' = Z.min (grid_index s) B) /\
  (A = B -> grid_index s' = grid_index s) /\
  last_update s' = last_update s /\
  current_sound s' = current_sound s.
Proof.
  unfold update_grid_size. intros Hup.
  apply bind_Ok_inv in Hup as (q & _ & Hup).
  apply bind_Ok_inv in Hup as (c & _ & Hup).
  apply bind_Ok_inv in Hup as (cols0 & _ & Hup).
  apply bind_Ok_inv in Hup as (r & _ & Hup).
  apply bind_Ok_inv in Hup as (rows0 & _ & Hup).
  apply bind_Ok_inv in Hup as (cw & _ & Hup).
  apply bind_Ok_inv in Hup as (ch & _ & Hup).
  cbn [grid_data set_geometry] in Hup.
  set (cols := Z.max 10 cols0) in *. set (rows := Z.max 10 rows0) in *.
  destruct (Z.eqb_spec (Z.of_nat (length (grid_data s))) (cols * rows))
    as [Hsame|Hdiff].
  - injection Hup as <-. unfold capacity. cbn.
    repeat split; intros; lia.
  - apply bind_Ok_inv in Hup as (data & Hcopy & Hup).
    assert (length data = length (py_repeat (None : Cell) (cols * rows)) /\
            forall k : nat,
              (Z.of_nat k < Z.min (Z.of_nat (length (grid_data s)))
                                  (cols * rows) ->
               data !! k = grid_data s !! k) /\
              (Z.min (Z.of_nat (length (grid_data s))) (cols * rows)
                 <= Z.of_nat k ->
               data !! k = py_repeat (None : Cell) (cols * rows) !! k))
      as [Hlen Hdata].
    { destruct (grid_data s) as [|x old] eqn:Hold.
      - injection Hcopy as <-. split; [reflexivity|].
        intros k. split; [simpl; lia | reflexivity].
      - rewrite <- Hold in *. apply copy_loop in Hcopy; [exact Hcopy | lia |].
        rewrite py_repeat_length. lia. }
    assert (Z.of_nat (length data) = cols * rows) as Hlen'.
    { rewrite Hlen, py_repeat_length. unfold cols, rows. lia. }
    injection Hup as <-. unfold capacity.
    destruct (Z.leb_spec (cols * rows) (grid_index s)); cbn;
      (split; [lia|]); (split; [lia|]); (split; [exact Hlen'|]);
      (split; [intros k Hk; apply Hdata; exact Hk|]);
      (split; [intros k Hk; rewrite (proj2 (Hdata k)) by lia;
               apply py_repeat_lookup; lia|]);
      repeat split; try lia.
Qed.

(** *** Drawing *)

Lemma draw_grid_colors (s s' : State F) :
  draw_grid s = Ok s' ->
  exists previous, s' = set_previous_cell_colors previous s.
Proof.
  unfold draw_grid. intros Hdraw.
  apply bind_Ok_inv in Hdraw as (previous & _ & Hdraw).
  injection Hdraw as <-. exists previous. reflexivity.
Qed.

End GridStore.

(** ** The update step on binary64 floats *)

Section UpdateIEEE.
Context {libm : Libm float}.

Lemma velocity_of_total (c : RGB) :
  channels_valid c -> exists v, velocity_of (F := float) c = Ok v.
Proof.
  destruct c as [[r g] b]. intros (Hr & Hg & Hb).
  assert (velocity_of (F := float) (r, g, b)
            = velocity_of (F := float) (r + g + b, 0, 0)) as ->.
  { unfold velocity_of. rewrite !Z.add_0_r. reflexivity. }
  apply succeeds_spec.
  apply (all_below_spec 766
           (fun s => succeeds (velocity_of (F := float) (s, 0, 0))));
    [vm_compute; reflexivity | lia].
Qed.

Lemma midi_note_to_frequency_total (note : Z) :
  exists frequency, midi_note_to_frequency (F := float) note = Ok frequency.
Proof.
  unfold midi_note_to_frequency, truediv.
  cbn [fdiv ieee_float float_of_int]. unfold IEEE.div.
  replace (PrimFloat.eqb (IEEE.of_Z 12) 0%float) with false
    by (vm_compute; reflexivity).
  rewrite bind_Ok. eexists. reflexivity.
Qed.

Lemma play_midi_note_total (note velocity : Z) (duration : float)
    (s : State float) :
  exists sound,
    play_midi_note note velocity duration s
      = Ok (set_current_sound sound s).
Proof.
  unfold play_midi_note.
  destruct (midi_note_to_frequency_total note) as (frequency & ->).
  rewrite bind_Ok.
  destruct (generate_tone frequency duration 44100) as [sound|e].
  - exists (Some sound). destruct s; reflexivity.
  - exists None. reflexivity.
Qed.

(** With a color in range, the update step is the write of the cell,
    after the tone in flight is replaced. *)
Lemma update_grid_as_write (c : RGB) (s : State float) :
  channels_valid c ->
  exists sound,
    update_grid c s = write_cell c (set_current_sound sound s).
Proof.
  intros Hc. unfold update_grid.
  destruct (Pitch.note_for_cases c Hc) as (note & Hnote & _).
  unfold note_for in Hnote. rewrite Hnote, bind_Ok.
  destruct (velocity_of_total c Hc) as (v & ->). rewrite bind_Ok.
  destruct (play_midi_note_total note (Z.max 1 v) (float_lit (2 # 10)) s)
    as (sound & ->).
  rewrite bind_Ok. exists sound. reflexivity.
Qed.

End UpdateIEEE.

(** C1: on a full grid of capacity N > 0, an update with a color [c] in
    range returns; the new grid has cell k + 1 of the old one at every
    index k < N - 1 and [c] at index N - 1, and the cursor is still N. *)
Theorem update_grid_full_shifts {libm : Libm float} (s : State float)
    (c : RGB) :
  Z.of_nat (length (grid_data s)) = capacity s ->
  grid_index s = capacity s ->
  0 < capacity s ->
  channels_valid c ->
  exists s',
    update_grid c s = Ok s' /\
    Z.of_nat (length (grid_data s')) = capacity s /\
    (forall k : nat, Z.of_nat k < capacity s - 1 ->
       grid_data s' !! k = grid_data s !! Datatypes.S k) /\
    grid_data s' !! Z.to_nat (capacity s - 1) = Some (Some c) /\
    grid_index s' = capacity s /\
    capacity s' = capacity s.
Proof.
  intros Hlen Hfull Hpos Hc.
  destruct (update_grid_as_write c s Hc) as (sound & ->).
  destruct (write_cell_full c (set_current_sound sound s))
    as (data & -> & Hdlen & Hshift & Hlast); [exact Hlen | | exact Hpos |].
  { unfold capacity in *. cbn. lia. }
  eexists. split; [reflexivity|]. cbn in *.
  split; [lia|]. split; [exact Hshift|]. split; [exact Hlast|].
  split; [exact Hfull | reflexivity].
Qed.

Lemma update_grid_full_shifts_witness :
  exists s',
    update_grid (libm := square_libm) (5, 6, 7)
      (mkState 0 0 2 2 [Some (1, 1, 1); Some (2, 2, 2); Some (3, 3, 3);
                        Some (4, 4, 4)] 4 [] None None 0) = Ok s' /\
    grid_data s' !! 0%nat = Some (Some (2, 2, 2)) /\
    grid_data s' !! 1%nat = Some (Some (3, 3, 3)) /\
    grid_data s' !! 2%nat = Some (Some (4, 4, 4)) /\
    grid_data s' !! 3%nat = Some (Some (5, 6, 7)) /\
    grid_index s' = 4.
Proof.
  destruct (update_grid_full_shifts (libm := square_libm)
              (mkState 0 0 2 2 [Some (1, 1, 1); Some (2, 2, 2);
                                Some (3, 3, 3); Some (4, 4, 4)]
                 4 [] None None 0) (5, 6, 7))
    as (s' & Hup & _ & Hshift & Hlast & Hidx & _).
  - reflexivity.
  - reflexivity.
  - reflexivity.
  - cbn. lia.
  - exists s'. split; [exact Hup|].
    split; [apply (Hshift 0%nat); reflexivity|].
    split; [apply (Hshift 1%nat); reflexivity|].
    split; [apply (Hshift 2%nat); reflexivity|].
    split; [exact Hlast | exact Hidx].
Defined.

(** C6: a resize from capacity A (the cells the grid holds) to capacity B.
    The new grid has B cells.  If B > A every old cell keeps its index; if
    B < A the first B cells keep theirs and nothing lies beyond them; in
    both cases the cursor becomes the smaller of the old cursor and B. *)
Theorem resize_preserves_cells {F : Type} {num : PyFloat F}
    (s s' : State F) :
  update_grid_size s = Ok s' ->
  let A := Z.of_nat (length (grid_data s)) in
  let B := capacity s' in
  Z.of_nat (length (grid_data s')) = B /\
  (A < B ->
     (forall k : nat, Z.of_nat k < A ->
        grid_data s' !! k = grid_data s !! k) /\
     grid_index s' = Z.min (grid_index s) B) /\
  (B < A ->
     (forall k : nat, Z.of_nat k < B ->
        grid_data s' !! k = grid_data s !! k) /\
     (forall k : nat, B <= Z.of_nat k -> grid_data s' !! k = None) /\
     grid_index s' = Z.min (grid_index s) B).
Proof.
  intros Hup. cbv zeta.
  destruct (update_grid_size_spec s s' Hup)
    as (_ & _ & Hlen & Hkeep & _ & Hcut & _).
  split; [exact Hlen|]. split.
  - intros Hgrow. split; [|apply Hcut; lia].
    intros k Hk. apply Hkeep. lia.
  - intros Hshrink. split; [|split; [|apply Hcut; lia]].
    + intros k Hk. apply Hkeep. lia.
    + intros k Hk. apply lookup_ge_None_2. lia.
Qed.

Lemma resize_preserves_cells_witness :
  exists s1 s2,
    update_grid_size grid_before_shrink = Ok s1 /\
    update_grid_size grid_before_grow = Ok s2 /\
    capacity s1 = 100 /\ capacity s2 = 130 /\
    Z.of_nat (length (grid_data s1)) = 100 /\
    grid_index s1 = 100 /\
    grid_data s1 !! 99%nat = Some (Some (1, 2, 3)) /\
    grid_index s2 = 105 /\
    grid_data s2 !! 104%nat = Some (Some (1, 2, 3)).
Proof.
  destruct (update_grid_size grid_before_shrink) as [s1|e] eqn:Hs1;
    [|vm_compute in Hs1; discriminate Hs1].
  destruct (update_grid_size grid_before_grow) as [s2|e] eqn:Hs2;
    [|vm_compute in Hs2; discriminate Hs2].
  assert (capacity s1 = 100) as Hc1
    by (vm_compute in Hs1; injection Hs1 as <-; reflexivity).
  assert (capacity s2 = 130) as Hc2
    by (vm_compute in Hs2; injection Hs2 as <-; reflexivity).
  pose proof (resize_preserves_cells _ _ Hs1) as (Hlen1 & _ & Hshrink).
  pose proof (resize_preserves_cells _ _ Hs2) as (_ & Hgrow & _).
  rewrite Hc1 in Hlen1, Hshrink. rewrite Hc2 in Hgrow.
  destruct Hshrink as (Hkeep1 & _ & Hidx1); [reflexivity|].
  destruct Hgrow as (Hkeep2 & Hidx2); [reflexivity|].
  exists s1, s2. repeat split; try assumption.
  - rewrite (Hkeep1 99%nat) by reflexivity. reflexivity.
  - rewrite (Hkeep2 104%nat) by reflexivity. reflexivity.
Defined.

(** ** The invariant of the grid store *)

Section Reachable.
Context {F : Type} {num : PyFloat F} {libm : Libm F}.

Lemma update_grid_size_inv (s s' : State F) :
  grid_inv s -> update_grid_size s = Ok s' -> grid_inv s'.
Proof.
  intros [Hlen Hidx] Hup.
  destruct (update_grid_size_spec s s' Hup)
    as (_ & _ & Hlen' & _ & _ & Hcut & Hsame & _).
  split; [exact Hlen'|].
  destruct (Z.eq_dec (Z.of_nat (length (grid_data s))) (capacity s'))
    as [Heq|Hne].
  - rewrite (Hsame Heq). lia.
  - rewrite (Hcut Hne). lia.
Qed.

Lemma update_grid_inv (c : RGB) (s s' : State F) :
  grid_inv s -> update_grid c s = Ok s' -> grid_inv s'.
Proof.
  intros Hinv Hup. apply update_grid_write in Hup as (sound & Hw).
  exact (write_cell_inv c (set_current_sound sound s) s' Hinv Hw).
Qed.

Lemma draw_grid_inv (s s' : State F) :
  grid_inv s -> draw_grid s = Ok s' -> grid_inv s'.
Proof.
  intros Hinv Hdraw. apply draw_grid_colors in Hdraw as (p & ->).
  exact Hinv.
Qed.

Lemma loop_body_inv (k : tick) (s s' : State F) (running : bool) :
  grid_inv s -> loop_body k s = Ok (running, s') -> grid_inv s'.
Proof.
  intros Hinv Hloop. unfold loop_body in Hloop.
  apply bind_Ok_inv in Hloop as (s1 & Hstep & Hloop).
  apply bind_Ok_inv in Hloop as (s2 & Hdraw & Hloop).
  injection Hloop as _ <-.
  apply (draw_grid_inv s1 s2); [|exact Hdraw].
  destruct (update_due (current_time k) s).
  - apply bind_Ok_inv in Hstep as (s0 & Hup & Hstep).
    injection Hstep as <-.
    exact (update_grid_inv (random_rgb k) s s0 Hinv Hup).
  - injection Hstep as <-. exact Hinv.
Qed.

Lemma init_inv (w h : Z) (s : State F) : init w h = Ok s -> grid_inv s.
Proof.
  unfold init. intros Hinit.
  apply bind_Ok_inv in Hinit as (s0 & Hup & Hinit). injection Hinit as <-.
  apply (update_grid_size_inv _ s0) in Hup; [exact Hup|].
  split; unfold capacity; cbn; lia.
Qed.

End Reachable.

(** C9: the grid holds [grid_cols * grid_rows] cells and the cursor lies
    between 0 and that capacity, in the state [__init__] leaves, after a
    resize and after an update of a state where it held, and so in every
    reachable state. *)
Theorem grid_invariant {F : Type} {num : PyFloat F} {libm : Libm F} :
  (forall w h (s : State F), init w h = Ok s -> grid_inv s) /\
  (forall s s' : State F,
     grid_inv s -> update_grid_size s = Ok s' -> grid_inv s') /\
  (forall c (s s' : State F),
     grid_inv s -> update_grid c s = Ok s' -> grid_inv s') /\
  (forall s : State F, reachable s -> grid_inv s).
Proof.
  split; [exact init_inv|]. split; [exact update_grid_size_inv|].
  split; [exact update_grid_inv|].
  intros s Hreach. induction Hreach as
    [w h s Hinit | w h s s' _ IH Hup | c s s' _ IH Hup | s s' _ IH Hdraw
    | k s running s' _ IH Hloop].
  - exact (init_inv w h s Hinit).
  - exact (update_grid_size_inv (set_screen w h s) s' IH Hup).
  - exact (update_grid_inv c s s' IH Hup).
  - exact (draw_grid_inv s s' IH Hdraw).
  - exact (loop_body_inv k s s' running IH Hloop).
Qed.

Lemma grid_invariant_witness :
  exists s : State float,
    init 200 250 = Ok s /\ capacity s = 110 /\ grid_inv s.
Proof.
  destruct (init (F := float) 200 250) as [s|e] eqn:Hinit;
    [|vm_compute in Hinit; discriminate Hinit].
  exists s. split; [reflexivity|]. split.
  - vm_compute in Hinit. injection Hinit as <-. reflexivity.
  - exact (proj1 (grid_invariant (libm := square_libm)) 200 250 s Hinit).
Defined.

(** ** FillScheduler *)

Section Scheduler.
Context {F : Type} {num : PyFloat F} {libm : Libm F}.

Lemma update_due_iff (t : Z) (s : State F) :
  update_due t s = true <-> t - last_update s >= 500.
Proof.
  unfold update_due, update_interval. rewrite Z.leb_le. lia.
Qed.

Lemma write_cell_last_update (c : RGB) (s s' : State F) :
  write_cell c s = Ok s' ->
  last_update s' = last_update s /\ current_sound s' = current_sound s.
Proof.
  unfold write_cell.
  destruct (grid_cols s * grid_rows s <=? grid_index s); intros Hw.
  - apply bind_Ok_inv in Hw as (d & _ & Hw).
    apply bind_Ok_inv in Hw as (d' & _ & Hw). injection Hw as <-. auto.
  - apply bind_Ok_inv in Hw as (d & _ & Hw). injection Hw as <-. auto.
Qed.

Lemma update_grid_last_update (c : RGB) (s s' : State F) :
  update_grid c s = Ok s' -> last_update s' = last_update s.
Proof.
  intros Hup. apply update_grid_write in Hup as (sound & Hw).
  apply write_cell_last_update in Hw as [Hw _]. exact Hw.
Qed.

(** One iteration: the update step runs exactly when it is due, and then
    stamps the time; the redraw follows in both cases. *)
Lemma loop_body_cases (k : tick) (s s' : State F) (running : bool) :
  loop_body k s = Ok (running, s') ->
  if update_due (current_time k) s then
    exists s1, update_grid (random_rgb k) s = Ok s1 /\
      draw_grid (set_last_update (current_time k) s1) = Ok s'
  else draw_grid s = Ok s'.
Proof.
  unfold loop_body. intros Hloop.
  apply bind_Ok_inv in Hloop as (s1 & Hstep & Hloop).
  apply bind_Ok_inv in Hloop as (s2 & Hdraw & Hloop).
  injection Hloop as _ <-.
  destruct (update_due (current_time k) s).
  - apply bind_Ok_inv in Hstep as (s0 & Hup & Hstep).
    injection Hstep as <-. exists s0. auto.
  - injection Hstep as <-. exact Hdraw.
Qed.

Lemma loop_body_last_update (k : tick) (s s' : State F) (running : bool) :
  loop_body k s = Ok (running, s') ->
  last_update s' =
    if update_due (current_time k) s then current_time k
    else last_update s.
Proof.
  intros Hloop. apply loop_body_cases in Hloop.
  destruct (update_due (current_time k) s).
  - destruct Hloop as (s1 & _ & Hdraw).
    apply draw_grid_colors in Hdraw as (p & ->). reflexivity.
  - apply draw_grid_colors in Hloop as (p & ->). reflexivity.
Qed.

(** The update times of a run are spaced by the interval, starting from
    the last update before the run. *)
Lemma run_spaced (ks : list tick) : forall (s s' : State F) (log : list Z),
  run ks s = Ok (log, s') -> spaced (last_update s) log.
Proof.
  induction ks as [|k ks IH]; intros s s' log Hrun.
  - injection Hrun as <- _. exact I.
  - simpl in Hrun. apply bind_Ok_inv in Hrun as ([running s1] & Hbody & Hrun).
    pose proof (loop_body_last_update k s s1 running Hbody) as Hlast.
    destruct (update_due (current_time k) s) eqn:Hdue.
    + apply update_due_iff in Hdue. destruct running.
      * apply bind_Ok_inv in Hrun as ([log' s2] & Hrest & Hrun).
        injection Hrun as <- _. simpl. split.
        -- unfold update_interval. lia.
        -- rewrite <- Hlast. exact (IH s1 s2 log' Hrest).
      * injection Hrun as <- _. simpl. unfold update_interval.
        split; [lia | exact I].
    + destruct running.
      * apply bind_Ok_inv in Hrun as ([log' s2] & Hrest & Hrun).
        injection Hrun as <- _. simpl. rewrite <- Hlast.
        exact (IH s1 s2 log' Hrest).
      * injection Hrun as <- _. exact I.
Qed.

End Scheduler.

(** C7: in one iteration of the run loop at time [t], the update step runs
    if and only if [t - last_update >= 500]; when it runs, the grid is
    updated and [last_update] becomes [t]; when it does not, the cells, the
    cursor, [last_update] and the tone are as before.  So the update times
    of a run are at least 500 ms apart. *)
Theorem update_every_interval {F : Type} {num : PyFloat F} {libm : Libm F} :
  (forall (k : tick) (s s' : State F) (running : bool),
     loop_body k s = Ok (running, s') ->
     (update_due (current_time k) s = true <->
        current_time k - last_update s >= 500) /\
     (update_due (current_time k) s = true ->
        exists s1, update_grid (random_rgb k) s = Ok s1 /\
          grid_data s' = grid_data s1 /\ grid_index s' = grid_index s1 /\
          last_update s' = current_time k) /\
     (update_due (current_time k) s = false ->
        grid_data s' = grid_data s /\ grid_index s' = grid_index s /\
        last_update s' = last_update s /\
        current_sound s' = current_sound s)) /\
  (forall (ks : list tick) (s s' : State F) (log : list Z),
     run ks s = Ok (log, s') -> spaced (last_update s) log).
Proof.
  split; [|exact run_spaced].
  intros k s s' running Hloop.
  split; [apply update_due_iff|].
  apply loop_body_cases in Hloop.
  destruct (update_due (current_time k) s); split; intros Hdue;
    try discriminate Hdue.
  - destruct Hloop as (s1 & Hup & Hdraw).
    apply draw_grid_colors in Hdraw as (p & ->). exists s1. auto.
  - apply draw_grid_colors in Hloop as (p & ->). auto.
Qed.

Lemma update_every_interval_witness : spaced 0 [500; 1000].
Proof.
  assert (sample_log = Ok [500; 1000]) as Hlog by (vm_compute; reflexivity).
  unfold sample_log in Hlog.
  apply bind_Ok_inv in Hlog as (s & Hinit & Hlog).
  apply bind_Ok_inv in Hlog as ([log s'] & Hrun & Hlog).
  injection Hlog as ->.
  assert (last_update s = 0) as Hzero.
  { unfold init in Hinit. apply bind_Ok_inv in Hinit as (s0 & _ & Hinit).
    injection Hinit as <-. reflexivity. }
  rewrite <- Hzero.
  exact (proj2 (update_every_interval (libm := mute_libm))
           sample_run s s' [500; 1000] Hrun).
Defined.

(** * More properties *)

(** ** The grid as a record of the colors written *)

Lemma grid_of_length (n : nat) (h : list RGB) : length (grid_of n h) = n.
Proof.
  unfold grid_of. destruct (Nat.leb_spec (length h) n).
  - rewrite length_app, length_fmap, length_replicate. lia.
  - rewrite length_fmap, length_drop. lia.
Qed.

Lemma grid_of_nil (n : nat) : grid_of n [] = replicate n None.
Proof. unfold grid_of. simpl. rewrite Nat.sub_0_r. reflexivity. Qed.

(** Writing below capacity: the color takes the first unset cell. *)
Lemma grid_of_snoc_free (n : nat) (h : list RGB) (c : RGB) :
  (length h < n)%nat ->
  <[length h := Some c]> (grid_of n h) = grid_of n (h ++ [c]).
Proof.
  intros Hlt. unfold grid_of. rewrite length_app. simpl.
  destruct (Nat.leb_spec (length h) n); [|lia].
  destruct (Nat.leb_spec (length h + 1) n); [|lia].
  rewrite insert_app_r_alt by (rewrite length_fmap; lia).
  rewrite length_fmap, Nat.sub_diag.
  replace (n - length h)%nat with (Datatypes.S (n - (length h + 1))) by lia.
  rewrite fmap_app. simpl. rewrite <- app_assoc. reflexivity.
Qed.

(** Cell [j] of a full grid is the color written [n - j] writes ago. *)
Lemma grid_of_lookup_full (n : nat) (h : list RGB) (j : nat) :
  (n <= length h)%nat ->
  grid_of n h !! j = if (j <? n)%nat then Some <$> h !! (length h - n + j)%nat
                     else None.
Proof.
  intros Hle. unfold grid_of. destruct (Nat.ltb_spec j n).
  - destruct (Nat.leb_spec (length h) n).
    + assert (length h = n) as Hn by lia.
      rewrite lookup_app_l by (rewrite length_fmap; lia).
      rewrite list_lookup_fmap. replace (length h - n + j)%nat with j by lia.
      destruct (h !! j); reflexivity.
    + rewrite list_lookup_fmap, lookup_drop.
      destruct (h !! (length h - n + j)%nat); reflexivity.
  - apply lookup_ge_None_2. fold (grid_of n h). rewrite grid_of_length. lia.
Qed.

(** Writing into a full grid: every cell moves one place left and the
    color goes last. *)
Lemma grid_of_snoc_full (n : nat) (h : list RGB) (c : RGB) (data : list Cell) :
  (0 < n)%nat -> (n <= length h)%nat ->
  length data = n ->
  (forall k : nat, (k < n - 1)%nat ->
     data !! k = grid_of n h !! Datatypes.S k) ->
  data !! (n - 1)%nat = Some (Some c) ->
  data = grid_of n (h ++ [c]).
Proof.
  intros Hpos Hle Hlen Hshift Hlast. apply list_eq. intros k.
  rewrite (grid_of_lookup_full n (h ++ [c]))
    by (rewrite length_app; simpl; lia).
  rewrite length_app. simpl. destruct (Nat.ltb_spec k n).
  - destruct (Nat.eq_dec k (n - 1)%nat) as [->|Hne].
    + rewrite Hlast.
      replace (length h + 1 - n + (n - 1))%nat with (length h) by lia.
      rewrite lookup_app_r by lia. rewrite Nat.sub_diag. reflexivity.
    + rewrite Hshift by lia. rewrite grid_of_lookup_full by lia.
      destruct (Nat.ltb_spec (Datatypes.S k) n); [|lia].
      rewrite lookup_app_l by lia.
      replace (length h + 1 - n + k)%nat with (length h - n + Datatypes.S k)%nat
        by lia.
      destruct (h !! (length h - n + Datatypes.S k)%nat); reflexivity.
  - apply lookup_ge_None_2. lia.
Qed.

Section History.
Context {F : Type} {num : PyFloat F}.

Lemma records_length (s : State F) (h : list RGB) :
  0 <= capacity s -> records s h ->
  Z.of_nat (length (grid_data s)) = capacity s.
Proof.
  intros Hcap [Hdata _]. rewrite Hdata, grid_of_length. lia.
Qed.

(** One write takes the record of [h] to the record of [h ++ [c]]. *)
Lemma write_cell_records (c : RGB) (s : State F) (h : list RGB) :
  0 < capacity s -> records s h ->
  exists s', write_cell c s = Ok s' /\ records s' (h ++ [c]) /\
    capacity s' = capacity s /\ current_sound s' = current_sound s /\
    last_update s' = last_update s.
Proof.
  intros Hpos Hrec.
  pose proof (records_length s h ltac:(lia) Hrec) as Hlen.
  destruct Hrec as [Hdata Hidx].
  destruct (Z.lt_ge_cases (Z.of_nat (length h)) (capacity s)) as [Hfree|Hfull].
  - rewrite write_cell_free by lia. eexists. split; [reflexivity|].
    unfold records, capacity in *. cbn. rewrite length_app. simpl.
    split; [split|auto]; [|lia].
    rewrite Hdata, Hidx.
    replace (Z.to_nat (Z.min (Z.of_nat (length h))
                             (grid_cols s * grid_rows s)))
      with (length h) by lia.
    apply grid_of_snoc_free. lia.
  - destruct (write_cell_full c s Hlen ltac:(lia) Hpos)
      as (data & -> & Hdlen & Hshift & Hlast).
    eexists. split; [reflexivity|].
    unfold records, capacity in *. cbn. rewrite length_app. simpl.
    split; [split|auto]; [|lia].
    apply grid_of_snoc_full.
    + lia.
    + lia.
    + lia.
    + intros k Hk. rewrite Hshift by lia. rewrite Hdata. reflexivity.
    + replace (Z.to_nat (grid_cols s * grid_rows s) - 1)%nat
        with (Z.to_nat (grid_cols s * grid_rows s - 1)) by lia.
      exact Hlast.
Qed.

End History.

(** ** The object after [__init__] *)

Section Fresh.
Context {F : Type} {num : PyFloat F}.

Lemma init_fresh (w h : Z) (s : State F) :
  init w h = Ok s ->
  10 <= grid_cols s /\ 10 <= grid_rows s /\
  grid_data s = replicate (Z.to_nat (capacity s)) None /\
  grid_index s = 0 /\
  previous_cell_colors s = replicate (Z.to_nat (capacity s)) None /\
  current_sound s = None /\ last_update s = 0 /\
  screen_width s = w /\ screen_height s = h.
Proof.
  unfold init. intros Hinit.
  apply bind_Ok_inv in Hinit as (s0 & Hup & Hinit). injection Hinit as <-.
  unfold update_grid_size in Hup.
  apply bind_Ok_inv in Hup as (q & _ & Hup).
  apply bind_Ok_inv in Hup as (c & _ & Hup).
  apply bind_Ok_inv in Hup as (cols0 & _ & Hup).
  apply bind_Ok_inv in Hup as (r & _ & Hup).
  apply bind_Ok_inv in Hup as (rows0 & _ & Hup).
  apply bind_Ok_inv in Hup as (cw & _ & Hup).
  apply bind_Ok_inv in Hup as (ch & _ & Hup).
  cbn [grid_data set_geometry length] in Hup.
  set (cols := Z.max 10 cols0) in *. set (rows := Z.max 10 rows0) in *.
  assert (100 <= cols * rows) as Hcap by (unfold cols, rows; nia).
  destruct (Z.eqb_spec (Z.of_nat 0) (cols * rows)) as [Hzero|_]; [lia|].
  rewrite bind_Ok in Hup. cbn in Hup.
  destruct (Z.leb_spec (cols * rows) 0); [lia|].
  injection Hup as <-. unfold capacity, py_repeat. cbn.
  repeat split; unfold cols, rows; lia.
Qed.

End Fresh.

(** ** Updates on binary64 floats *)

Section UpdatesIEEE.
Context {libm : Libm float}.

Lemma update_grid_records (c : RGB) (s : State float) (h : list RGB) :
  channels_valid c -> 0 < capacity s -> records s h ->
  exists s', update_grid c s = Ok s' /\ records s' (h ++ [c]) /\
    capacity s' = capacity s /\ last_update s' = last_update s.
Proof.
  intros Hc Hpos Hrec.
  destruct (update_grid_as_write c s Hc) as (sound & ->).
  destruct (write_cell_records c (set_current_sound sound s) h Hpos Hrec)
    as (s' & Hw & Hrec' & Hcap & _ & Hlast).
  exists s'. auto.
Qed.

Lemma update_all_records_from (cs : list RGB) :
  forall (s : State float) (h : list RGB),
    Forall channels_valid cs -> 0 < capacity s -> records s h ->
    exists s', update_all cs s = Ok s' /\ records s' (h ++ cs) /\
      capacity s' = capacity s.
Proof.
  induction cs as [|c cs IH]; intros s h Hcs Hpos Hrec.
  - exists s. rewrite app_nil_r. auto.
  - apply Forall_cons in Hcs as [Hc Hcs].
    destruct (update_grid_records c s h Hc Hpos Hrec)
      as (s1 & Hup & Hrec1 & Hcap1 & _).
    destruct (IH s1 (h ++ [c]) Hcs ltac:(lia) Hrec1)
      as (s' & Hall & Hrec' & Hcap').
    exists s'. simpl. rewrite Hup, bind_Ok.
    rewrite <- app_assoc in Hrec'. split; [exact Hall|].
    split; [exact Hrec' | lia].
Qed.

Lemma init_records (w h : Z) (s : State float) :
  init w h = Ok s -> records s [] /\ 0 < capacity s.
Proof.
  intros Hinit.
  destruct (init_fresh w h s Hinit) as (Hc & Hr & Hdata & Hidx & _).
  unfold records, capacity in *. rewrite grid_of_nil. simpl.
  split; [split; [exact Hdata | lia] | nia].
Qed.

End UpdatesIEEE.

(** Below capacity an update with a color in range returns: the color is
    written at the cursor, every other cell is as before, and the cursor
    moves on by one. *)
Theorem update_grid_writes_at_cursor {libm : Libm float} (s : State float)
    (c : RGB) :
  Z.of_nat (length (grid_data s)) = capacity s ->
  0 <= grid_index s < capacity s ->
  channels_valid c ->
  exists s',
    update_grid c s = Ok s' /\
    grid_data s' = <[Z.to_nat (grid_index s) := Some c]> (grid_data s) /\
    grid_index s' = grid_index s + 1 /\
    capacity s' = capacity s.
Proof.
  intros Hlen Hidx Hc.
  destruct (update_grid_as_write c s Hc) as (sound & ->).
  rewrite write_cell_free by assumption.
  eexists. split; [reflexivity|]. cbn. auto.
Qed.

Lemma update_grid_writes_at_cursor_witness :
  exists s',
    update_grid (libm := square_libm) (255, 0, 0)
      (mkState 0 0 2 2 [Some (1, 1, 1); None; None; None] 1 [] None None 0)
      = Ok s' /\
    grid_data s' = [Some (1, 1, 1); Some (255, 0, 0); None; None] /\
    grid_index s' = 2.
Proof.
  destruct (update_grid_writes_at_cursor (libm := square_libm)
              (mkState 0 0 2 2 [Some (1, 1, 1); None; None; None]
                 1 [] None None 0) (255, 0, 0))
    as (s' & Hup & Hdata & Hidx & _).
  - reflexivity.
  - unfold capacity. cbn. lia.
  - cbn. lia.
  - exists s'. auto.
Defined.

(** From [__init__] on, after the colors [cs] (in range) have been fed to
    [update_grid] one by one, the grid holds them in order followed by
    unset cells, or the last [capacity] of them once more than that have
    come; the cursor is the number of colors, capped at the capacity. *)
Theorem update_all_keeps_latest {libm : Libm float} (w h : Z)
    (s : State float) (cs : list RGB) :
  init w h = Ok s ->
  Forall channels_valid cs ->
  exists s',
    update_all cs s = Ok s' /\
    grid_data s' = grid_of (Z.to_nat (capacity s)) cs /\
    grid_index s' = Z.min (Z.of_nat (length cs)) (capacity s) /\
    capacity s' = capacity s.
Proof.
  intros Hinit Hcs. destruct (init_records w h s Hinit) as [Hrec Hpos].
  destruct (update_all_records_from cs s [] Hcs Hpos Hrec)
    as (s' & Hall & [Hdata Hidx] & Hcap).
  exists s'. rewrite Hcap in Hdata, Hidx. auto.
Qed.

Lemma update_all_keeps_latest_witness :
  exists s s' : State float,
    init 200 250 = Ok s /\
    update_all (libm := mute_libm) [(1, 2, 3); (4, 5, 6)] s = Ok s' /\
    grid_index s' = 2.
Proof.
  destruct (init (F := float) 200 250) as [s|e] eqn:Hinit;
    [|vm_compute in Hinit; discriminate Hinit].
  assert (capacity s = 110) as Hcap
    by (vm_compute in Hinit; injection Hinit as <-; reflexivity).
  destruct (update_all_keeps_latest (libm := mute_libm) 200 250 s
              [(1, 2, 3); (4, 5, 6)] Hinit)
    as (s' & Hall & _ & Hidx & _).
  - repeat constructor; cbn; lia.
  - exists s, s'. rewrite Hcap in Hidx. auto.
Defined.

(** [__init__] leaves a grid of at least 10 by 10 cells, all unset, with
    the cursor at 0, no tone, no recorded colors and [last_update] 0. *)
Theorem init_leaves_empty_grid {F : Type} {num : PyFloat F} (w h : Z)
    (s : State F) :
  init w h = Ok s ->
  10 <= grid_cols s /\ 10 <= grid_rows s /\
  grid_data s = replicate (Z.to_nat (capacity s)) None /\
  grid_index s = 0 /\
  previous_cell_colors s = replicate (Z.to_nat (capacity s)) None /\
  current_sound s = None /\ last_update s = 0 /\
  screen_width s = w /\ screen_height s = h.
Proof. exact (init_fresh w h s). Qed.

Lemma init_leaves_empty_grid_witness :
  exists s : State float,
    init 0 0 = Ok s /\ grid_cols s = 10 /\ grid_rows s = 10 /\
    grid_index s = 0 /\ last_update s = 0.
Proof.
  destruct (init (F := float) 0 0) as [s|e] eqn:Hinit;
    [|vm_compute in Hinit; discriminate Hinit].
  destruct (init_leaves_empty_grid 0 0 s Hinit)
    as (_ & _ & _ & Hidx & _ & _ & Hlast & _).
  exists s. split; [reflexivity|].
  split; [vm_compute in Hinit; injection Hinit as <-; reflexivity|].
  split; [vm_compute in Hinit; injection Hinit as <-; reflexivity|].
  auto.
Defined.

(** ** Colors as hex strings *)

Lemma two_digits_channel (v : Z) :
  0 <= v <= 255 ->
  exists a b, format_02x v = String a (String b EmptyString) /\
    hex_pair a b = Some v /\ lower_ascii a = a /\ lower_ascii b = b.
Proof.
  intros Hv.
  assert (two_digits v = true) as Hcheck
    by (apply (all_below_spec 256 two_digits); [vm_compute; reflexivity | lia]).
  unfold two_digits in Hcheck.
  destruct (format_02x v) as [|a [|b [|]]]; try discriminate Hcheck.
  destruct (hex_pair a b) as [z|] eqn:Hpair; [|discriminate Hcheck].
  apply andb_prop in Hcheck as [Hcheck Hb].
  apply andb_prop in Hcheck as [Hz Ha].
  apply Z.eqb_eq in Hz. apply Ascii.eqb_eq in Ha, Hb. subst z.
  exists a, b. auto.
Qed.

Lemma rgb_to_hex_parse (c : RGB) :
  channels_valid c ->
  parse_hex (rgb_to_hex c) = Some c /\ str_lower (rgb_to_hex c) = rgb_to_hex c.
Proof.
  destruct c as [[r g] b]. intros (Hr & Hg & Hb).
  destruct (two_digits_channel r Hr) as (r1 & r2 & Er & Pr & Lr1 & Lr2).
  destruct (two_digits_channel g Hg) as (g1 & g2 & Eg & Pg & Lg1 & Lg2).
  destruct (two_digits_channel b Hb) as (b1 & b2 & Eb & Pb & Lb1 & Lb2).
  unfold rgb_to_hex. rewrite Er, Eg, Eb. simpl.
  rewrite Pr, Pg, Pb, Lr1, Lr2, Lg1, Lg2, Lb1, Lb2. auto.
Qed.

Lemma rgb_to_hex_inj (c c' : RGB) :
  channels_valid c -> channels_valid c' ->
  rgb_to_hex c = rgb_to_hex c' -> c = c'.
Proof.
  intros Hc Hc' Heq.
  destruct (rgb_to_hex_parse c Hc) as [Hp _].
  destruct (rgb_to_hex_parse c' Hc') as [Hp' _].
  rewrite Heq in Hp. congruence.
Qed.

Lemma rgb_eqb_spec (r g b r' g' b' : Z) :
  reflect ((r, g, b) = (r', g', b'))
          ((r =? r') && (g =? g') && (b =? b')).
Proof.
  destruct (Z.eqb_spec r r'), (Z.eqb_spec g g'), (Z.eqb_spec b b');
    simpl; constructor; congruence.
Qed.

(** For a color in range the table lookup of [color_to_midi_note] hits
    exactly on the four reserved colors. *)
Lemma color_to_midi_map_reserved (c : RGB) :
  channels_valid c ->
  color_to_midi_map !! str_lower (rgb_to_hex c) = reserved_note c.
Proof.
  intros Hc. destruct (rgb_to_hex_parse c Hc) as [_ ->].
  assert (forall c0 : RGB, channels_valid c0 -> c <> c0 ->
            rgb_to_hex c0 <> rgb_to_hex c) as Hne.
  { intros c0 Hc0 Hdiff Heq. apply Hdiff. symmetry.
    exact (rgb_to_hex_inj c0 c Hc0 Hc Heq). }
  destruct c as [[r g] b]. unfold color_to_midi_map, reserved_note.
  destruct (rgb_eqb_spec r g b 0 0 0) as [E|N];
    [injection E as -> -> ->; vm_compute; reflexivity|].
  rewrite lookup_insert_ne by (apply (Hne (0, 0, 0)); [cbn; lia | exact N]).
  destruct (rgb_eqb_spec r g b 10 10 10) as [E|N10];
    [injection E as -> -> ->; vm_compute; reflexivity|].
  rewrite lookup_insert_ne
    by (apply (Hne (10, 10, 10)); [cbn; lia | exact N10]).
  destruct (rgb_eqb_spec r g b 26 26 26) as [E|N26];
    [injection E as -> -> ->; vm_compute; reflexivity|].
  rewrite lookup_insert_ne
    by (apply (Hne (26, 26, 26)); [cbn; lia | exact N26]).
  destruct (rgb_eqb_spec r g b 255 255 255) as [E|N255];
    [injection E as -> -> ->; vm_compute; reflexivity|].
  rewrite lookup_insert_ne
    by (apply (Hne (255, 255, 255)); [cbn; lia | exact N255]).
  apply lookup_empty.
Qed.

(** For every float arithmetic, the note of a color is its table entry
    if it has one, else what the averaging formula gives. *)
Lemma note_for_unfold {F : Type} {num : PyFloat F} (c : RGB) :
  note_for (F := F) c =
    match color_to_midi_map !! str_lower (rgb_to_hex c) with
    | Some note => Ok note
    | None => color_to_midi_note (F := F) None (Some c)
    end.
Proof. destruct c as [[r g] b]. reflexivity. Qed.

(** ** PitchMapper in exact arithmetic *)

Lemma semitone_offset_exact (v : Z) :
  0 <= v -> semitone_offset (F := Q) v = Ok (12 * v / 255).
Proof.
  intros Hv. unfold semitone_offset, truediv.
  cbn [fdiv fmul float_of_int int_of_float exact_float].
  unfold Exact.div. change (Qeq_bool (inject_Z 255) 0) with false.
  cbv iota. rewrite bind_Ok. unfold Exact.to_int. cbn.
  rewrite Z.quot_div_nonneg by lia. do 2 f_equal. lia.
Qed.

Lemma mean_note_round_exact (s : Z) :
  0 <= s -> truediv (F := Q) s 3 ≫= round_float = Ok ((2 * s + 3) / 6).
Proof.
  intros Hs. unfold truediv.
  cbn [fdiv float_of_int round_float exact_float].
  unfold Exact.div. change (Qeq_bool (inject_Z 3) 0) with false.
  cbv iota. rewrite bind_Ok. unfold Exact.round. cbn.
  destruct (Z.ltb_spec (s * 1) 0); [lia|]. unfold IEEE.signed.
  rewrite Z.abs_eq by lia. unfold IEEE.nearest_even.
  replace (s * 1) with s by lia.
  pose proof (Z.div_mod s 3 ltac:(lia)) as Hdm.
  pose proof (Z.mod_pos_bound s 3 ltac:(lia)) as Hmod.
  change (Z.pos (1 * 3)) with 3. f_equal.
  destruct (Z.compare_spec (2 * (s mod 3)) 3) as [Heq|Hlt|Hgt].
  - lia.
  - apply Z.div_unique with (r := 2 * (s mod 3) + 3); lia.
  - apply Z.div_unique with (r := 2 * (s mod 3) - 3); lia.
Qed.

Lemma color_to_midi_note_generative_exact (c : RGB) :
  channels_valid c ->
  color_to_midi_note (F := Q) None (Some c) = Ok (generative_note c).
Proof.
  destruct c as [[r g] b]. intros (Hr & Hg & Hb).
  unfold color_to_midi_note, generative_note.
  rewrite !semitone_offset_exact by lia. rewrite !bind_Ok.
  pose proof (Pitch.offset_bounds r Hr). pose proof (Pitch.offset_bounds g Hg).
  pose proof (Pitch.offset_bounds b Hb).
  rewrite bind_assoc, mean_note_round_exact by lia. reflexivity.
Qed.

(** ** The notes of the colors *)

(** The string of a color in range is [#] and six lower-case hexadecimal
    digits that read back as the color; so two colors in range with the
    same string are the same color. *)
Theorem rgb_to_hex_round_trip (c : RGB) :
  channels_valid c ->
  parse_hex (rgb_to_hex c) = Some c /\
  String.length (rgb_to_hex c) = 7%nat /\
  str_lower (rgb_to_hex c) = rgb_to_hex c /\
  (forall c', channels_valid c' -> rgb_to_hex c' = rgb_to_hex c -> c' = c).
Proof.
  intros Hc. destruct (rgb_to_hex_parse c Hc) as [Hparse Hlower].
  split; [exact Hparse|]. split; [|split; [exact Hlower|]].
  - destruct c as [[r g] b]. destruct Hc as (Hr & Hg & Hb).
    unfold rgb_to_hex.
    destruct (two_digits_channel r Hr) as (r1 & r2 & -> & _).
    destruct (two_digits_channel g Hg) as (g1 & g2 & -> & _).
    destruct (two_digits_channel b Hb) as (b1 & b2 & -> & _).
    reflexivity.
  - intros c' Hc' Heq. exact (rgb_to_hex_inj c' c Hc' Hc Heq).
Qed.

Lemma rgb_to_hex_round_trip_witness :
  parse_hex (rgb_to_hex (255, 10, 171)) = Some (255, 10, 171).
Proof.
  apply (rgb_to_hex_round_trip (255, 10, 171)). cbn. lia.
Defined.

(** On binary64 floats the note of a color in range is 36, 38, 40 or 60
    for exactly the four reserved colors and the mean of the three band
    notes for every other color; that mean is never outside 48..60, so
    the clamp to 36..96 never acts. *)
Theorem note_for_exact (c : RGB) :
  channels_valid c ->
  exists n,
    note_for (F := float) c = Ok n /\
    n = match reserved_note c with
        | Some note => note
        | None => generative_note c
        end /\
    48 <= generative_note c <= 60 /\
    (let '(r, g, b) := c in
     generative_note c
       = (2 * (144 + 12 * r / 255 + 12 * g / 255 + 12 * b / 255) + 3) / 6).
Proof.
  intros Hc. rewrite note_for_unfold, color_to_midi_map_reserved by exact Hc.
  assert (48 <= generative_note c <= 60 /\
          (let '(r, g, b) := c in
           generative_note c
             = (2 * (144 + 12 * r / 255 + 12 * g / 255 + 12 * b / 255) + 3)
               / 6)) as Hgen.
  { destruct c as [[r g] b]. destruct Hc as (Hr & Hg & Hb).
    pose proof (Pitch.offset_bounds r Hr).
    pose proof (Pitch.offset_bounds g Hg).
    pose proof (Pitch.offset_bounds b Hb).
    unfold generative_note.
    replace (36 + 12 * r / 255 + (48 + 12 * g / 255) + (60 + 12 * b / 255))
      with (144 + 12 * r / 255 + 12 * g / 255 + 12 * b / 255) by lia.
    assert (48 <= (2 * (144 + 12 * r / 255 + 12 * g / 255 + 12 * b / 255) + 3)
                  / 6 <= 60) as Hrange.
    { split; [apply Z.div_le_lower_bound; lia|].
      apply Z.lt_succ_r. apply Z.div_lt_upper_bound; lia. }
    split; lia. }
  destruct (reserved_note c) as [note|].
  - exists note. auto.
  - rewrite (Pitch.color_to_midi_note_generative c Hc).
    exists (generative_note c). auto.
Qed.

Lemma note_for_exact_witness :
  exists n, note_for (F := float) (85, 170, 254) = Ok n /\ n = 56.
Proof.
  destruct (note_for_exact (85, 170, 254)) as (n & Hn & Hval & _);
    [cbn; lia|].
  exists n. split; [exact Hn|]. rewrite Hval. reflexivity.
Defined.

(** Rounding does not change a note: for every color in range the note
    computed on binary64 floats is the note of exact arithmetic. *)
Theorem note_for_same_in_exact_arithmetic (c : RGB) :
  channels_valid c ->
  note_for (F := float) c = note_for (F := Q) c.
Proof.
  intros Hc. rewrite !note_for_unfold.
  destruct (color_to_midi_map !! str_lower (rgb_to_hex c)); [reflexivity|].
  rewrite (Pitch.color_to_midi_note_generative c Hc).
  rewrite (color_to_midi_note_generative_exact c Hc). reflexivity.
Qed.

Lemma note_for_same_in_exact_arithmetic_witness :
  note_for (F := float) (85, 170, 254) = note_for (F := Q) (85, 170, 254).
Proof.
  apply (note_for_same_in_exact_arithmetic (85, 170, 254)). cbn. lia.
Defined.

(** Raising channels never lowers the pitch of the averaging formula: if
    each channel of [c'] is at least that of [c], the note of [c'] is at
    least the note of [c]. *)
Theorem generative_note_monotone (r g b r' g' b' : Z) :
  channels_valid (r, g, b) -> channels_valid (r', g', b') ->
  r <= r' -> g <= g' -> b <= b' ->
  exists n n',
    color_to_midi_note (F := float) None (Some (r, g, b)) = Ok n /\
    color_to_midi_note (F := float) None (Some (r', g', b')) = Ok n' /\
    n <= n'.
Proof.
  intros Hc Hc' Hr Hg Hb.
  rewrite (Pitch.color_to_midi_note_generative _ Hc).
  rewrite (Pitch.color_to_midi_note_generative _ Hc').
  eexists. eexists. split; [reflexivity|]. split; [reflexivity|].
  unfold generative_note.
  assert (12 * r / 255 <= 12 * r' / 255) by (apply Z.div_le_mono; lia).
  assert (12 * g / 255 <= 12 * g' / 255) by (apply Z.div_le_mono; lia).
  assert (12 * b / 255 <= 12 * b' / 255) by (apply Z.div_le_mono; lia).
  apply Z.max_le_compat_l, Z.min_le_compat_l, Z.div_le_mono; lia.
Qed.

Lemma generative_note_monotone_witness :
  exists n n',
    color_to_midi_note (F := float) None (Some (0, 100, 200)) = Ok n /\
    color_to_midi_note (F := float) None (Some (85, 100, 255)) = Ok n' /\
    n <= n'.
Proof.
  apply (generative_note_monotone 0 100 200 85 100 255); cbn; lia.
Defined.

(** ** Velocity and tone of an update *)

Lemma velocity_of_floor (c : RGB) :
  channels_valid c ->
  velocity_of (F := float) c
    = Ok (let '(r, g, b) := c in 127 * (r + g + b) / 765).
Proof.
  destruct c as [[r g] b]. intros (Hr & Hg & Hb).
  assert (velocity_of (F := float) (r, g, b)
            = velocity_of (F := float) (r + g + b, 0, 0)) as ->.
  { unfold velocity_of. rewrite !Z.add_0_r. reflexivity. }
  apply returns_spec.
  apply (all_below_spec 766
           (fun s => returns (velocity_of (F := float) (s, 0, 0))
                             (127 * s / 765)));
    [vm_compute; reflexivity | lia].
Qed.

(** On binary64 floats the velocity of a color in range is the mean
    brightness scaled to 0..127, rounded down; what [update_grid] passes
    to [play_midi_note], [max(1, velocity)], lies in 1..127. *)
Theorem velocity_in_midi_range (r g b : Z) :
  channels_valid (r, g, b) ->
  exists v,
    velocity_of (F := float) (r, g, b) = Ok v /\
    v = 127 * (r + g + b) / 765 /\
    0 <= v <= 127 /\ 1 <= Z.max 1 v <= 127 /\
    (v = 127 <-> (r, g, b) = (255, 255, 255)).
Proof.
  intros Hc. rewrite (velocity_of_floor _ Hc). destruct Hc as (Hr & Hg & Hb).
  eexists. split; [reflexivity|]. split; [reflexivity|].
  assert (0 <= 127 * (r + g + b) / 765) by (apply Z.div_pos; lia).
  assert (127 * (r + g + b) / 765 <= 127)
    by (apply Z.div_le_upper_bound; lia).
  split; [lia|]. split; [lia|]. split.
  - intros Hmax.
    destruct (Z.eq_dec (r + g + b) 765) as [Hsum|Hsum].
    + f_equal; [f_equal|]; lia.
    + assert (127 * (r + g + b) / 765 < 127)
        by (apply Z.div_lt_upper_bound; lia).
      lia.
  - intros [= -> -> ->]. reflexivity.
Qed.

Lemma velocity_in_midi_range_witness :
  exists v, velocity_of (F := float) (255, 0, 0) = Ok v /\ v = 42.
Proof.
  destruct (velocity_in_midi_range 255 0 0) as (v & Hv & Hval & _);
    [cbn; lia|].
  exists v. split; [exact Hv|]. rewrite Hval. reflexivity.
Defined.

Section SoundOfUpdate.
Context {F : Type} {num : PyFloat F}.

(** The write of a cell neither reads nor touches the tone. *)
Lemma write_cell_sound (c : RGB) (sound : option Sound) (s : State F) :
  write_cell c (set_current_sound sound s) =
    match write_cell c s with
    | Ok s' => Ok (set_current_sound sound s')
    | Raise e => Raise e
    end.
Proof.
  unfold write_cell. cbn [grid_cols grid_rows grid_index grid_data
                          set_current_sound].
  destruct (grid_cols s * grid_rows s <=? grid_index s).
  - destruct (for_range _ _ (grid_data s)) as [d|e]; [|reflexivity].
    rewrite !bind_Ok.
    destruct (py_setitem d _ _) as [d'|e]; reflexivity.
  - destruct (py_setitem (grid_data s) _ _) as [d'|e]; reflexivity.
Qed.

End SoundOfUpdate.

(** The grid does not depend on the sound: the updates of one state with
    one color under two C libraries return together, and their states
    differ in the tone kept at most. *)
Theorem update_grid_grid_ignores_sound {F : Type} {num : PyFloat F}
    (libm1 libm2 : Libm F) (c : RGB) (s s1 : State F) :
  update_grid (libm := libm1) c s = Ok s1 ->
  exists s2,
    update_grid (libm := libm2) c s = Ok s2 /\
    s2 = set_current_sound (current_sound s2) s1.
Proof.
  unfold update_grid. intros Hup.
  apply bind_Ok_inv in Hup as (note & -> & Hup).
  apply bind_Ok_inv in Hup as (velocity & -> & Hup).
  apply bind_Ok_inv in Hup as (s1a & Hplay & Hw).
  rewrite !bind_Ok.
  assert (exists snd1, s1a = set_current_sound snd1 s) as (snd1 & ->)
    by exact (play_midi_note_sound _ _ _ _ _ Hplay).
  assert (exists snd2,
            play_midi_note (libm := libm2) note (Z.max 1 velocity)
              (float_lit (2 # 10)) s = Ok (set_current_sound snd2 s))
    as (snd2 & ->).
  { unfold play_midi_note, midi_note_to_frequency in *.
    apply bind_Ok_inv in Hplay as (f1 & Hf1 & _).
    apply bind_Ok_inv in Hf1 as (e & -> & _). rewrite !bind_Ok.
    destruct (generate_tone _ _ 44100) as [sound|err].
    - exists (Some sound). destruct s; reflexivity.
    - exists None. reflexivity. }
  rewrite bind_Ok. rewrite write_cell_sound in Hw |- *.
  destruct (write_cell c s) as [s'|err]; [|discriminate Hw].
  injection Hw as <-. eexists. split; [reflexivity|].
  destruct s'; reflexivity.
Qed.

Lemma update_grid_grid_ignores_sound_witness :
  exists s1 s2 : State float,
    update_grid (libm := mute_libm) (5, 6, 7)
      (mkState 0 0 2 2 [None; None; None; None] 0 [] None None 0) = Ok s1 /\
    update_grid (libm := square_libm) (5, 6, 7)
      (mkState 0 0 2 2 [None; None; None; None] 0 [] None None 0) = Ok s2 /\
    grid_data s2 = grid_data s1.
Proof.
  destruct (update_grid (libm := mute_libm) (5, 6, 7)
              (mkState 0 0 2 2 [None; None; None; None] 0 [] None None 0))
    as [s1|e] eqn:Hs1; [|vm_compute in Hs1; discriminate Hs1].
  destruct (update_grid_grid_ignores_sound mute_libm square_libm (5, 6, 7)
              _ s1 Hs1) as (s2 & Hs2 & Heq).
  exists s1, s2. split; [reflexivity|]. split; [exact Hs2|].
  rewrite Heq. reflexivity.
Defined.

(** The tone an update keeps is the tone of the new color, or none when
    its synthesis raises: never the tone that was playing. *)
Theorem update_grid_replaces_tone {F : Type} {num : PyFloat F}
    {libm : Libm F} (c : RGB) (s s' : State F) :
  update_grid c s = Ok s' ->
  exists note frequency,
    note_for (F := F) c = Ok note /\
    midi_note_to_frequency note = Ok frequency /\
    current_sound s' =
      match generate_tone frequency (float_lit (2 # 10)) 44100 with
      | Ok sound => Some sound
      | Raise _ => None
      end.
Proof.
  intros Hup. unfold update_grid in Hup.
  apply bind_Ok_inv in Hup as (note & Hnote & Hup).
  apply bind_Ok_inv in Hup as (velocity & _ & Hup).
  apply bind_Ok_inv in Hup as (s1 & Hplay & Hw).
  unfold play_midi_note in Hplay.
  apply bind_Ok_inv in Hplay as (frequency & Hfreq & Hplay).
  exists note, frequency. split; [exact Hnote|]. split; [exact Hfreq|].
  apply write_cell_last_update in Hw as [_ ->].
  destruct (generate_tone frequency (float_lit (2 # 10)) 44100);
    injection Hplay as <-; reflexivity.
Qed.

Lemma update_grid_replaces_tone_witness :
  exists s' : State float,
    update_grid (libm := mute_libm) (5, 6, 7)
      (mkState 0 0 2 2 [None; None; None; None] 0 [] (Some [(1, 1)]) None 0)
      = Ok s' /\
    current_sound s' = None.
Proof.
  destruct (update_grid (libm := mute_libm) (5, 6, 7)
              (mkState 0 0 2 2 [None; None; None; None] 0 []
                 (Some [(1, 1)]) None 0))
    as [s'|e] eqn:Hs; [|vm_compute in Hs; discriminate Hs].
  destruct (update_grid_replaces_tone (libm := mute_libm) (5, 6, 7) _ s'
              Hs) as (note & frequency & Hnote & Hfreq & Hsound).
  exists s'. split; [reflexivity|]. rewrite Hsound.
  vm_compute in Hnote. injection Hnote as <-.
  vm_compute in Hfreq. injection Hfreq as <-.
  vm_compute. reflexivity.
Defined.

(** ** The tone buffer *)

(** Whatever the float arithmetic and the C library, every frame of a
    tone has the same value on both channels, a 16-bit signed one. *)
Theorem generate_tone_stereo {F : Type} {num : PyFloat F} {libm : Libm F}
    (frequency duration : F) (sample_rate : Z) (buf : Sound) :
  generate_tone frequency duration sample_rate = Ok buf ->
  forall (j : nat) (left right : Z),
    buf !! j = Some (left, right) ->
    left = right /\ - 2 ^ 15 <= left < 2 ^ 15.
Proof.
  intros Hgen j left right Hj.
  destruct (generate_tone_filled _ _ _ _ Hgen)
    as (frames & _ & _ & Hlen & Hfilled).
  assert (j < length buf)%nat as Hlt
    by (apply lookup_lt_is_Some; eauto).
  destruct (Hfilled (Z.of_nat j)) as (sample & _ & Hlook); [lia|].
  rewrite Nat2Z.id, Hj in Hlook. injection Hlook as -> ->.
  split; [reflexivity|]. unfold int16.
  pose proof (Z.mod_pos_bound (sample + 2 ^ 15) (2 ^ 16) ltac:(lia)). lia.
Qed.

Lemma generate_tone_stereo_witness :
  exists (buf : Sound) (left right : Z),
    generate_tone (libm := square_libm) 440%float (float_lit (2 # 10000)) 44100
      = Ok buf /\
    buf !! 3%nat = Some (left, right) /\ left = right.
Proof.
  destruct (generate_tone (libm := square_libm) 440%float
              (float_lit (2 # 10000)) 44100) as [buf|e] eqn:Hgen;
    [|vm_compute in Hgen; discriminate Hgen].
  assert (buf !! 3%nat = Some (66, 66)) as Hlook
    by (vm_compute in Hgen; injection Hgen as <-; reflexivity).
  exists buf, 66, 66. split; [reflexivity|]. split; [exact Hlook|].
  exact (proj1 (generate_tone_stereo (libm := square_libm) _ _ _ _ Hgen
                  3%nat 66 66 Hlook)).
Defined.

(** ** Drawing *)

Section Drawing.
Context {F : Type} {num : PyFloat F}.



End Drawing.



(** ** Events and the end of the run *)

Lemma handle_event_false (evs : list event) :
  foldl handle_event false evs = false.
Proof.
  induction evs as [|e evs IH]; [reflexivity|].
  simpl. destruct e as [|key| |]; simpl; try exact IH.
  destruct (key =? K_ESCAPE); exact IH.
Qed.

Lemma handle_events_quit (evs : list event) :
  foldl handle_event true evs = false <-> Exists quits evs.
Proof.
  induction evs as [|e evs IH].
  - split; [discriminate | intros H; inversion H].
  - simpl. rewrite Exists_cons.
    destruct e as [|key| |]; simpl.
    + rewrite handle_event_false. tauto.
    + destruct (Z.eqb_spec key K_ESCAPE) as [->|Hne].
      * rewrite handle_event_false. tauto.
      * rewrite IH. tauto.
    + rewrite handle_event_false. tauto.
    + rewrite IH. tauto.
Qed.

Section RunEnd.
Context {F : Type} {num : PyFloat F} {libm : Libm F}.

Lemma loop_body_running (k : tick) (s s' : State F) (running : bool) :
  loop_body k s = Ok (running, s') ->
  running = foldl handle_event true (events k).
Proof.
  unfold loop_body. intros Hloop.
  apply bind_Ok_inv in Hloop as (s1 & _ & Hloop).
  apply bind_Ok_inv in Hloop as (s2 & _ & Hloop).
  injection Hloop as <- _. reflexivity.
Qed.

End RunEnd.

(** An iteration clears [running] exactly when its events hold a quit, a
    mouse press or the Escape key; any other key leaves the loop running.
    The iteration that clears it still updates and draws, and it is the
    last: the iterations after it are never run. *)
Theorem run_ends_on_quit {F : Type} {num : PyFloat F} {libm : Libm F} :
  (forall (k : tick) (s s' : State F) (running : bool),
     loop_body k s = Ok (running, s') ->
     (running = false <-> Exists quits (events k))) /\
  (forall (k : tick) (ks : list tick) (s : State F),
     Exists quits (events k) ->
     run (k :: ks) s = run [k] s) /\
  (forall (k : tick) (ks : list tick) (s : State F) (log : list Z)
          (s' : State F),
     Exists quits (events k) ->
     run (k :: ks) s = Ok (log, s') ->
     exists s1, loop_body k s = Ok (false, s1) /\ s' = s1 /\
       log = if update_due (current_time k) s then [current_time k] else []).
Proof.
  split; [|split].
  - intros k s s' running Hloop.
    rewrite (loop_body_running k s s' running Hloop).
    apply handle_events_quit.
  - intros k ks s Hquit. simpl.
    destruct (loop_body k s) as [[running s1]|e] eqn:Hloop; [|reflexivity].
    rewrite !bind_Ok.
    rewrite (loop_body_running k s s1 running Hloop).
    rewrite (proj2 (handle_events_quit (events k)) Hquit). reflexivity.
  - intros k ks s log s' Hquit Hrun. simpl in Hrun.
    destruct (loop_body k s) as [[running s1]|e] eqn:Hloop;
      [|discriminate Hrun].
    rewrite bind_Ok in Hrun.
    assert (running = false) as ->.
    { rewrite (loop_body_running k s s1 running Hloop).
      apply handle_events_quit. exact Hquit. }
    injection Hrun as <- <-. exists s1. auto.
Qed.

Lemma run_ends_on_quit_witness :
  run (F := float) (libm := mute_libm)
      [mkTick 100 [KEYDOWN 65; MOUSEBUTTONDOWN] (1, 2, 3);
       mkTick 600 [] (4, 5, 6)]
      (mkState 0 0 1 1 [None] 0 [] None None 0)
  = run (F := float) (libm := mute_libm)
      [mkTick 100 [KEYDOWN 65; MOUSEBUTTONDOWN] (1, 2, 3)]
      (mkState 0 0 1 1 [None] 0 [] None None 0).
Proof.
  apply (proj1 (proj2 (run_ends_on_quit (libm := mute_libm)))).
  apply Exists_cons_tl, Exists_cons_hd. exact I.
Defined.

(** ** The run loop never raises *)

Section Safety.
Context {libm : Libm float}.








End Safety.



(** ** An object that was never sized *)

(** With no cell in the grid, as before the first [update_grid_size],
    writing a color raises IndexError whatever the cursor and the
    dimensions, and so does an update with a color in range. *)
Theorem update_grid_empty_grid_raises {libm : Libm float} (c : RGB)
    (s : State float) :
  grid_data s = [] ->
  write_cell c s = Raise IndexError /\
  (channels_valid c -> update_grid c s = Raise IndexError).
Proof.
  intros Hempty.
  assert (forall s0 : State float, grid_data s0 = [] ->
            write_cell c s0 = Raise IndexError) as Hw.
  { intros s0 H0. unfold write_cell. rewrite H0.
    destruct (grid_cols s0 * grid_rows s0 <=? grid_index s0).
    - unfold for_range.
      destruct (Z.to_nat (grid_cols s0 * grid_rows s0 - 1)) as [|n].
      + simpl. rewrite py_setitem_empty. reflexivity.
      + simpl. unfold py_getitem, py_index. simpl. reflexivity.
    - rewrite py_setitem_empty. reflexivity. }
  split; [exact (Hw s Hempty)|].
  intros Hc. destruct (update_grid_as_write c s Hc) as (sound & ->).
  apply Hw. exact Hempty.
Qed.

Lemma update_grid_empty_grid_raises_witness :
  update_grid (libm := square_libm) (1, 2, 3)
    (mkState 1920 1080 0 0 [] 0 [] None None 0) = Raise IndexError.
Proof.
  apply (update_grid_empty_grid_raises (libm := square_libm));
    [reflexivity | cbn; lia].
Defined.

(** ** Resizing twice *)

(** A second [update_grid_size] on the same display changes nothing:
    the geometry is computed again to the same values and the grid,
    already of that capacity, is left alone. *)
Theorem update_grid_size_idempotent {F : Type} {num : PyFloat F}
    (s s' : State F) :
  update_grid_size s = Ok s' -> update_grid_size s' = Ok s'.
Proof.
  intros Hup.
  destruct (update_grid_size_spec s s' Hup) as (_ & _ & Hlen & _).
  unfold capacity in Hlen.
  unfold update_grid_size in Hup.
  apply bind_Ok_inv in Hup as (q & Hq & Hup).
  apply bind_Ok_inv in Hup as (c & Hc & Hup).
  apply bind_Ok_inv in Hup as (cols0 & Hcols & Hup).
  apply bind_Ok_inv in Hup as (r & Hr & Hup).
  apply bind_Ok_inv in Hup as (rows0 & Hrows & Hup).
  apply bind_Ok_inv in Hup as (cw & Hcw & Hup).
  apply bind_Ok_inv in Hup as (ch & Hch & Hup).
  assert (screen_width s' = screen_width s /\
          screen_height s' = screen_height s /\
          grid_cols s' = Z.max 10 cols0 /\ grid_rows s' = Z.max 10 rows0 /\
          cell_size s' = Some (py_min cw ch)) as (Hw & Hh & Hgc & Hgr & Hcs).
  { cbn [grid_data set_geometry] in Hup.
    destruct (Z.of_nat (length (grid_data s))
                =? Z.max 10 cols0 * Z.max 10 rows0).
    - injection Hup as <-. cbn. auto.
    - apply bind_Ok_inv in Hup as (data & _ & Hup).
      cbn in Hup.
      destruct (Z.max 10 cols0 * Z.max 10 rows0 <=? grid_index s);
        injection Hup as <-; cbn; auto. }
  unfold update_grid_size. rewrite Hw, Hh, Hq, bind_Ok, Hc, bind_Ok.
  rewrite Hcols, bind_Ok, Hr, bind_Ok, Hrows, bind_Ok, Hcw, bind_Ok.
  rewrite Hch, bind_Ok. cbn [grid_data set_geometry].
  rewrite <- Hgc, <- Hgr, Hlen, Z.eqb_refl.
  f_equal. destruct s'. unfold set_geometry. cbn in *. rewrite Hcs.
  reflexivity.
Qed.

Lemma update_grid_size_idempotent_witness :
  exists s' : State float,
    update_grid_size grid_before_shrink = Ok s' /\
    update_grid_size s' = Ok s'.
Proof.
  destruct (update_grid_size grid_before_shrink) as [s'|e] eqn:Hup;
    [|vm_compute in Hup; discriminate Hup].
  exists s'. split; [reflexivity|].
  exact (update_grid_size_idempotent grid_before_shrink s' Hup).
Defined.

(** ** The geometry of the grid *)

Section Geometry.
Context {F : Type} {num : PyFloat F}.



End Geometry.





(** ** The first frame of a tone *)




(** ** The color of the text *)

Lemma brightness_threshold (s : Z) :
  0 <= s <= 255000 ->
  truediv (F := float) s 1000
    = Ok (PrimFloat.div (IEEE.of_Z s) 1000%float) /\
  PrimFloat.ltb (IEEE.of_Z 128) (PrimFloat.div (IEEE.of_Z s) 1000%float)
    = (128000 <? s).
Proof.
  intros Hs. split; [reflexivity|].
  assert (brightness_check s = true) as Hcheck
    by (apply (all_below_spec (Z.to_nat 255001) brightness_check);
        [vm_compute; reflexivity | lia]).
  unfold brightness_check in Hcheck. apply Bool.eqb_prop in Hcheck.
  exact Hcheck.
Qed.

(** On binary64 floats the text of a cell with channels in range is black
    when 299 r + 587 g + 114 b exceeds 128000 and white otherwise: a
    brightness of exactly 128 still gets white text. *)
Theorem get_text_color_threshold (r g b : Z) :
  channels_valid (r, g, b) ->
  get_text_color (F := float) (r, g, b)
    = Ok (if 128000 <? r * 299 + g * 587 + b * 114 then (0, 0, 0)
          else (255, 255, 255)).
Proof.
  intros (Hr & Hg & Hb). unfold get_text_color.
  destruct (brightness_threshold (r * 299 + g * 587 + b * 114))
    as [-> Hlt]; [lia|].
  rewrite bind_Ok. cbn [fltb ieee_float float_of_int]. rewrite Hlt.
  reflexivity.
Qed.

Lemma get_text_color_threshold_witness :
  get_text_color (F := float) (128, 128, 128) = Ok (255, 255, 255).
Proof.
  apply (get_text_color_threshold 128 128 128). cbn. lia.
Defined.
